(** * Release specification: template generation and validation

    A shallow embedding of [src/release-specification.ts]:
    [generateReleaseSpecificationTemplateForMonorepo] and
    [validateReleaseSpecification].

    JavaScript objects used as maps are association lists in property
    order ([Object.keys] / [Object.entries] order); lookups consult own
    properties only.  The [errors] array that the validator mutates with
    [errors.push] is threaded through a small state-and-exception monad. *)

From Stdlib Require Import List String Ascii ZArith Lia Bool Arith DecimalString.
From Stdlib Require Import Sorted.
Import ListNotations.

Local Open Scope string_scope.
Local Open Scope Z_scope.
Local Open Scope list_scope.

Set Implicit Arguments.

(* ------------------------------------------------------------------ *)
(** ** JavaScript objects as ordered maps *)

Module Obj.

Definition t (V : Type) := list (string * V).

(** [obj[key]]: [None] stands for [undefined]. *)
Fixpoint get {V} (obj : t V) (key : string) : option V :=
  match obj with
  | [] => None
  | (k, v) :: rest => if String.eqb k key then Some v else get rest key
  end.

(** [Object.keys(obj)] *)
Definition keys {V} (obj : t V) : list string := map fst obj.

(** [Object.values(obj)] *)
Definition values {V} (obj : t V) : list V := map snd obj.

(** [hasProperty(obj, key)], that is
    [Object.hasOwnProperty.call(obj, key)]. *)
Definition hasProperty {V} (obj : t V) (key : string) : bool :=
  existsb (String.eqb key) (keys obj).

(** [{ ...obj, [key]: v }]: an existing key keeps its position and takes
    the new value, a new key goes last. *)
Fixpoint set {V} (obj : t V) (key : string) (v : V) : t V :=
  match obj with
  | [] => [(key, v)]
  | (k, w) :: rest =>
      if String.eqb k key then (k, v) :: rest else (k, w) :: set rest key v
  end.

(** [Object.keys({ ...a, ...b })] *)
Definition spreadKeys {V W} (a : t V) (b : t W) : list string :=
  fold_left (fun acc k => if existsb (String.eqb k) acc then acc else acc ++ [k])
            (keys a ++ keys b) [].

End Obj.

(* ------------------------------------------------------------------ *)
(** ** The semver library ([./semver] and the [semver] package) *)

(** What [diff] of the [semver] package returns besides [null]. *)
Inductive ReleaseType :=
| RTmajor | RTpremajor | RTminor | RTpreminor | RTpatch | RTprepatch
| RTprerelease.

Definition ReleaseType_eqb (a b : ReleaseType) : bool :=
  match a, b with
  | RTmajor, RTmajor | RTpremajor, RTpremajor | RTminor, RTminor
  | RTpreminor, RTpreminor | RTpatch, RTpatch | RTprepatch, RTprepatch
  | RTprerelease, RTprerelease => true
  | _, _ => false
  end.

(** The version operations that [release-specification.ts] imports.  They
    live outside the file under study, so the development is parametric in
    them.  [parse s] is [semver.parse(s)] ([None] for [null]);
    [new SemVer(s)] throws exactly when [parse s] is [None].  The two laws
    say that a string accepted by [isValidSemver] parses, and that neither
    the empty string nor ["intentionally-skip"] is a version. *)
Class SemverLib := {
  SemVer : Type;
  isValidSemver : string -> bool;
  parse : string -> option SemVer;
  compare : SemVer -> SemVer -> Z;
  diff : SemVer -> string -> option ReleaseType;
  isValidSemver_parse :
    forall s, isValidSemver s = true -> exists v, parse s = Some v;
  isValidSemver_word :
    forall s,
      In s [EmptyString; "intentionally-skip"] -> isValidSemver s = false
}.

(* ------------------------------------------------------------------ *)
(** ** Lines of the release spec file *)

Module Lines.

Definition newline : ascii := "010"%char.
Definition space : ascii := " "%char.
Definition hash : ascii := "#"%char.

(** [contents.split('\n')] *)
Fixpoint split (contents : string) : list string :=
  match contents with
  | EmptyString => [EmptyString]
  | String c rest =>
      if Ascii.eqb c newline then EmptyString :: split rest
      else match split rest with
           | [] => [String c EmptyString]
           | line :: lines => String c line :: lines
           end
  end.

Fixpoint containsSpace (line : string) : bool :=
  match line with
  | EmptyString => false
  | String c rest => Ascii.eqb c space || containsSpace rest
  end.

Definition startsWithHash (line : string) : bool :=
  match line with
  | String c _ => Ascii.eqb c hash
  | EmptyString => false
  end.

(** [/^#|[ ]+/u.test(line)]: the alternation binds loosest, so the
    pattern matches a [#] at the start of the line, or a run of spaces
    anywhere in it. *)
Definition regexTest (line : string) : bool :=
  startsWithHash line || containsSpace line.

(** [lines.findIndex(p)], [-1] when no line satisfies [p]. *)
Fixpoint findIndexFrom (p : string -> bool) (lines : list string) (i : Z) : Z :=
  match lines with
  | [] => -1
  | line :: rest => if p line then i else findIndexFrom p rest (i + 1)
  end.

Definition findIndex (p : string -> bool) (lines : list string) : Z :=
  findIndexFrom p lines 0.

Definition indexOfFirstUsableLine (contents : string) : Z :=
  findIndex (fun line => negb (regexTest line)) (split contents).

End Lines.

(* ------------------------------------------------------------------ *)
(** ** Data model *)

(** [IncrementableVersionParts] *)
Inductive IncrementableVersionParts := major | minor | patch.

Definition IncrementableVersionParts_name (p : IncrementableVersionParts) : string :=
  match p with
  | major => "major"
  | minor => "minor"
  | patch => "patch"
  end.

(** The enum as the object the compiler emits:
    [{ major: 'major', minor: 'minor', patch: 'patch' }]. *)
Definition IncrementableVersionPartsObject : Obj.t string :=
  [("major", "major"); ("minor", "minor"); ("patch", "patch")].

(** A value under [packages] in the raw document, at its declared type
    [string | null]; [None] is [null]. *)
Definition Directive := option string.

Definition SKIP_PACKAGE_DIRECTIVE : Directive := None.
Definition INTENTIONALLY_SKIP_PACKAGE_DIRECTIVE : string := "intentionally-skip".

(** [a === b] on directives *)
Definition Directive_eqb (a b : Directive) : bool :=
  match a, b with
  | None, None => true
  | Some x, Some y => String.eqb x y
  | _, _ => false
  end.

(** JavaScript truthiness of [string | null | undefined]: [undefined]
    (outer [None]), [null] and the empty string are falsy. *)
Definition truthy (v : option Directive) : bool :=
  match v with
  | Some (Some s) => negb (String.eqb s EmptyString)
  | _ => false
  end.

(** [hasProperty(IncrementableVersionParts, v)]; the key [null] is looked
    up as the string ["null"]. *)
Definition hasPropertyIncrementable (v : Directive) : bool :=
  match v with
  | Some s => Obj.hasProperty IncrementableVersionPartsObject s
  | None => Obj.hasProperty IncrementableVersionPartsObject "null"
  end.

(** [Object.values(IncrementableVersionParts).includes(v)], with the member
    found. *)
Definition includesIncrementable (v : Directive) : option IncrementableVersionParts :=
  match v with
  | Some s =>
      find (fun p => String.eqb (IncrementableVersionParts_name p) s)
           [major; minor; patch]
  | None => None
  end.

(** How a computation that may throw a [TypeError] ends. *)
Inductive Completion (A : Type) :=
| Returned (a : A)
| ThrewTypeError.

Arguments ThrewTypeError {A}.

Section WithSemver.

Context `{Semver : SemverLib}.

(** [isValidSemver(v)] on a directive: only strings can be versions. *)
Definition isValidSemverDirective (v : Directive) : bool :=
  match v with
  | Some s => isValidSemver s
  | None => false
  end.

Record ValidatedManifest := {
  name : string;
  version : SemVer;
  dependencies : Obj.t string;
  peerDependencies : Obj.t string
}.

Record Package := {
  validatedManifest : ValidatedManifest;
  hasChangesSinceLatestRelease : bool
}.

Record Project := {
  rootPackage : Package;
  workspacePackages : Obj.t Package
}.

(** [VersionSpecifier], as it is at run time: [semver.parse(...) as SemVer]
    is [null] when the string does not parse. *)
Inductive VersionSpecifier :=
| Bump (part : IncrementableVersionParts)
| Exact (parsed : option SemVer).

Record ReleaseSpecification := {
  packages : Obj.t VersionSpecifier;
  path : string
}.

(** One [errors.push] site each; the payload is what the message
    interpolates. *)
Inductive Message :=
| NotAPackage (changedPackageName : string)
| InvalidVersionSpecifier (v : Directive) (changedPackageName : string)
| AlreadyAtVersion (v : string) (changedPackageName : string)
| AtGreaterVersion (v : string) (changedPackageName : string) (current : SemVer)
| MissingDependents (changedPackageName : string) (missingDependentNames : list string)
| MissingDependencies (changedPackageName : string) (missingDependencies : list string).

Record ValidationError := {
  message : Message;
  lineNumber : option Z
}.

(* ------------------------------------------------------------------ *)
(** ** The effects of the validator's loop body

    The callback given to [forEach] appends to the shared [errors] array and
    may throw a [TypeError] (reading a property of [undefined], or
    [new SemVer] on a string that is not a version).  Nothing catches that
    exception, so it ends the whole validation. *)

Definition Eff (A : Type) : Type :=
  list ValidationError -> Completion (A * list ValidationError).

Definition ret {A} (a : A) : Eff A :=
  fun errors => Returned (a, errors).

Definition bind {A B} (m : Eff A) (k : A -> Eff B) : Eff B :=
  fun errors =>
    match m errors with
    | Returned (a, errors') => k a errors'
    | ThrewTypeError => ThrewTypeError
    end.

(** [errors.push(e)] *)
Definition push (e : ValidationError) : Eff unit :=
  fun errors => Returned (tt, errors ++ [e]).

Definition throwTypeError {A} : Eff A :=
  fun _ => ThrewTypeError.

(** [if (b) { m }] *)
Definition when (b : bool) (m : Eff unit) : Eff unit :=
  if b then m else ret tt.

Notation "x <- m ;; k" := (bind m (fun x => k))
  (at level 61, m at next level, right associativity).
Notation "m ;; k" := (bind m (fun _ => k))
  (at level 61, right associativity).

(** Reading a property of [changedPackage], which may be [undefined]. *)
Definition deref (changedPackage : option Package) : Eff Package :=
  match changedPackage with
  | Some pkg => ret pkg
  | None => throwTypeError
  end.

(** [new SemVer(v)] *)
Definition newSemVer (v : Directive) : Eff SemVer :=
  match v with
  | Some s => match parse s with
              | Some sv => ret sv
              | None => throwTypeError
              end
  | None => throwTypeError
  end.

(** [diff(current, v) === 'major'] *)
Definition diffIsMajor (current : SemVer) (v : Directive) : bool :=
  match v with
  | Some s => match diff current s with
              | Some rt => ReleaseType_eqb rt RTmajor
              | None => false
              end
  | None => false
  end.

(* ------------------------------------------------------------------ *)
(** ** The dependency rules *)

(** [project.workspacePackages[n].hasChangesSinceLatestRelease], read
    through [?.] or on a key of the object. *)
Definition hasChanges (project : Project) (n : string) : bool :=
  match Obj.get (workspacePackages project) n with
  | Some pkg => hasChangesSinceLatestRelease pkg
  | None => false
  end.

(** The first filter of the dependents rule.  [possibleDependentName] ranges
    over [Object.keys(project.workspacePackages)], so the lookup is never
    [undefined]. *)
Definition dependentNames (project : Project) (changedPackageName : string)
  : list string :=
  filter
    (fun possibleDependentName =>
       match Obj.get (workspacePackages project) possibleDependentName with
       | Some possibleDependent =>
           Obj.hasProperty
             (dependencies (validatedManifest possibleDependent))
             changedPackageName
           || Obj.hasProperty
                (peerDependencies (validatedManifest possibleDependent))
                changedPackageName
       | None => false
       end)
    (Obj.keys (workspacePackages project)).

Definition changedDependentNames (project : Project)
  (changedPackageName : string) : list string :=
  filter (hasChanges project) (dependentNames project changedPackageName).

Definition missingDependentNames (project : Project)
  (rawPackages : Obj.t Directive) (changedPackageName : string) : list string :=
  filter (fun dependentName => negb (truthy (Obj.get rawPackages dependentName)))
         (changedDependentNames project changedPackageName).

Definition missingDependencies (project : Project)
  (rawPackages : Obj.t Directive) (changedPackage : Package) : list string :=
  filter
    (fun dependency =>
       hasChanges project dependency
       && negb (truthy (Obj.get rawPackages dependency)))
    (Obj.spreadKeys (dependencies (validatedManifest changedPackage))
                    (peerDependencies (validatedManifest changedPackage))).

(* ------------------------------------------------------------------ *)
(** ** The loop body of [validateReleaseSpecification] *)

Definition mkError (m : Message) (line : option Z) : ValidationError :=
  {| message := m; lineNumber := line |}.

(** The callback passed to [Object.entries(...).forEach].  [rawPackages] is
    [unvalidatedReleaseSpecification.packages]. *)
Definition validateEntry (project : Project) (rawPackages : Obj.t Directive)
  (indexOfFirstUsableLine : Z)
  (changedPackageName : string) (versionSpecifierOrDirective : Directive)
  (index : nat) : Eff unit :=
  let lineNumber := indexOfFirstUsableLine + Z.of_nat index + 2 in
  let changedPackage := Obj.get (workspacePackages project) changedPackageName in
  when (match changedPackage with None => true | Some _ => false end)
       (push (mkError (NotAPackage changedPackageName) (Some lineNumber))) ;;
  when (negb (Directive_eqb versionSpecifierOrDirective SKIP_PACKAGE_DIRECTIVE)
        && negb (Directive_eqb versionSpecifierOrDirective
                   (Some INTENTIONALLY_SKIP_PACKAGE_DIRECTIVE))
        && negb (hasPropertyIncrementable versionSpecifierOrDirective)
        && negb (isValidSemverDirective versionSpecifierOrDirective))
       (push (mkError
                (InvalidVersionSpecifier versionSpecifierOrDirective
                   changedPackageName)
                (Some lineNumber))) ;;
  when (isValidSemverDirective versionSpecifierOrDirective)
       (sv <- newSemVer versionSpecifierOrDirective ;;
        pkg <- deref changedPackage ;;
        let comparison := compare sv (version (validatedManifest pkg)) in
        if comparison =? 0 then
          push (mkError
                  (AlreadyAtVersion
                     (match versionSpecifierOrDirective with
                      | Some s => s
                      | None => "null"
                      end)
                     changedPackageName)
                  (Some lineNumber))
        else if comparison <? 0 then
          push (mkError
                  (AtGreaterVersion
                     (match versionSpecifierOrDirective with
                      | Some s => s
                      | None => "null"
                      end)
                     changedPackageName
                     (version (validatedManifest pkg)))
                  (Some lineNumber))
        else ret tt) ;;
  isMajorBump <-
    (if Directive_eqb versionSpecifierOrDirective (Some "major") then ret true
     else if isValidSemverDirective versionSpecifierOrDirective then
       pkg <- deref changedPackage ;;
       ret (diffIsMajor (version (validatedManifest pkg))
              versionSpecifierOrDirective)
     else ret false) ;;
  when isMajorBump
       (let missing := missingDependentNames project rawPackages changedPackageName in
        when (0 <? Z.of_nat (List.length missing))
             (push (mkError (MissingDependents changedPackageName missing) None))) ;;
  match changedPackage with
  | Some pkg =>
      when (truthy (Some versionSpecifierOrDirective)
            && (hasPropertyIncrementable versionSpecifierOrDirective
                || isValidSemverDirective versionSpecifierOrDirective))
           (let missing := missingDependencies project rawPackages pkg in
            when (0 <? Z.of_nat (List.length missing))
                 (push (mkError (MissingDependencies changedPackageName missing)
                          None)))
  | None => ret tt
  end.

(** [entries.forEach(callback)], the callback receiving the entry and its
    index. *)
Fixpoint forEachEntry (callback : string -> Directive -> nat -> Eff unit)
  (entries : Obj.t Directive) (index : nat) : Eff unit :=
  match entries with
  | [] => ret tt
  | (k, v) :: rest =>
      callback k v index ;; forEachEntry callback rest (S index)
  end.

(* ------------------------------------------------------------------ *)
(** ** The parsed document *)

(** The value of the [packages] property once [YAML.parse] has run.
    Nothing in the code checks its shape, so the cases that
    [Object.entries] tells apart are kept: [null], a number or boolean, a
    sequence, a mapping.  (A string scalar is enumerated like the sequence
    of its characters.)  The values inside a sequence or mapping are taken
    at the declared type [string | null]. *)
Inductive PackagesValue :=
| PackagesNull
| PackagesScalar
| PackagesSequence (items : list Directive)
| PackagesMapping (entries : Obj.t Directive).

(** What [YAML.parse] returned: a mapping, with its [packages] property if
    it has one, or anything else ([null], a scalar, a sequence: values for
    which [!isObject(x) || x.packages === undefined] holds). *)
Inductive ParsedDocument :=
| NotAMapping
| Mapping (packagesProperty : option PackagesValue).

Fixpoint indexed (items : list Directive) (i : nat) : Obj.t Directive :=
  match items with
  | [] => []
  | v :: rest => (NilEmpty.string_of_uint (Nat.to_uint i), v) :: indexed rest (S i)
  end.

(** [Object.entries(packages)]; [None] when it throws a [TypeError]. *)
Definition Object_entries (p : PackagesValue) : option (Obj.t Directive) :=
  match p with
  | PackagesNull => None
  | PackagesScalar => Some []
  | PackagesSequence items => Some (indexed items 0)
  | PackagesMapping entries => Some entries
  end.

(** The [reduce] that builds [ReleaseSpecification.packages]. *)
Definition resolvePackages (rawPackages : Obj.t Directive) : Obj.t VersionSpecifier :=
  fold_left
    (fun obj packageName =>
       match Obj.get rawPackages packageName with
       | Some None => obj
       | Some (Some s) =>
           if String.eqb s INTENTIONALLY_SKIP_PACKAGE_DIRECTIVE then obj
           else match includesIncrementable (Some s) with
                | Some part => Obj.set obj packageName (Bump part)
                | None => Obj.set obj packageName (Exact (parse s))
                end
       | None => Obj.set obj packageName (Exact None)
       end)
    (Obj.keys rawPackages) [].

(** How a call of [validateReleaseSpecification] ends.  The first two are
    the errors thrown before any entry is looked at; the third carries the
    collected [errors]. *)
Inductive Outcome :=
| InvalidYamlError
| NotAnObjectWithPackagesError
| ReleaseSpecificationError (errors : list ValidationError)
| UncaughtTypeError
| Validated (spec : ReleaseSpecification).

(** [validateReleaseSpecification(project, releaseSpecificationPath)].
    [releaseSpecificationContents] is what [readFile] returned and [parsed]
    what [YAML.parse] made of it ([None] when it threw). *)
Definition validateReleaseSpecification (project : Project)
  (releaseSpecificationPath : string) (releaseSpecificationContents : string)
  (parsed : option ParsedDocument) : Outcome :=
  let indexOfFirstUsableLine :=
    Lines.indexOfFirstUsableLine releaseSpecificationContents in
  match parsed with
  | None => InvalidYamlError
  | Some NotAMapping => NotAnObjectWithPackagesError
  | Some (Mapping None) => NotAnObjectWithPackagesError
  | Some (Mapping (Some packagesValue)) =>
      match Object_entries packagesValue with
      | None => UncaughtTypeError
      | Some rawPackages =>
          match forEachEntry
                  (validateEntry project rawPackages indexOfFirstUsableLine)
                  rawPackages 0 [] with
          | ThrewTypeError => UncaughtTypeError
          | Returned (_, errors) =>
              if 0 <? Z.of_nat (List.length errors)
              then ReleaseSpecificationError errors
              else Validated {| packages := resolvePackages rawPackages;
                                path := releaseSpecificationPath |}
          end
      end
  end.

(* ------------------------------------------------------------------ *)
(** ** Template generation *)

Definition nl : string := String Lines.newline EmptyString.

(** [lines.join('\n')] *)
Fixpoint joinLines (lines : list string) : string :=
  match lines with
  | [] => EmptyString
  | [line] => line
  | line :: rest => String.append line (String.append nl (joinLines rest))
  end.

Definition quoted (s : string) : string :=
  let q := String (Ascii.ascii_of_nat 34) EmptyString in
  String.append q (String.append s q).

Definition afterEditingInstructions (isEditorAvailable : bool) : list string :=
  if isEditorAvailable then
    ["# When you're finished making your selections, save this file and";
     "# create-release-branch will continue automatically."]
  else
    ["# When you're finished making your selections, save this file and then re-run";
     "# create-release-branch."].

(** The lines of [instructions], after the template literal is trimmed. *)
Definition instructionLines (rootName : string) (isEditorAvailable : bool)
  : list string :=
  [String.append "# The following is a list of packages in "
     (String.append rootName ".");
   "# Please indicate the packages for which you want to create a new release";
   String.append "# by updating "
     (String.append (quoted "null") " to one of the following:");
   "#";
   String.append "# - "
     (String.append (quoted "major")
        " (if you want to bump the major part of the package's version)");
   String.append "# - "
     (String.append (quoted "minor")
        " (if you want to bump the minor part of the package's version)");
   String.append "# - "
     (String.append (quoted "patch")
        " (if you want to bump the patch part of the package's version)");
   String.append "# - an exact version with major, minor, and patch parts (e.g. "
     (String.append (quoted "1.2.3") ")");
   "# - intentionally-skip (to skip the package entirely)";
   "#"]
  ++ afterEditingInstructions isEditorAvailable.

Definition instructions (rootName : string) (isEditorAvailable : bool) : string :=
  joinLines (instructionLines rootName isEditorAvailable).

Definition changedWorkspacePackages (project : Project) : list Package :=
  filter hasChangesSinceLatestRelease (Obj.values (workspacePackages project)).

(** The [reduce] that builds the [packages] object of the template. *)
Definition templatePackages (changed : list Package) : Obj.t Directive :=
  fold_left
    (fun obj pkg => Obj.set obj (name (validatedManifest pkg)) SKIP_PACKAGE_DIRECTIVE)
    changed [].

Inductive TemplateOutcome :=
| NoChangedPackagesError
| Template (text : string).

(** [generateReleaseSpecificationTemplateForMonorepo].  [stringifyPackages]
    stands for [packages => YAML.stringify({ packages })]. *)
Definition generateReleaseSpecificationTemplateForMonorepo
  (stringifyPackages : Obj.t Directive -> string)
  (project : Project) (isEditorAvailable : bool) : TemplateOutcome :=
  let changed := changedWorkspacePackages project in
  if Nat.eqb (List.length changed) 0 then NoChangedPackagesError
  else
    Template
      (String.append
         (instructions (name (validatedManifest (rootPackage project)))
            isEditorAvailable)
         (String.append nl
            (String.append nl (stringifyPackages (templatePackages changed))))).

(* ------------------------------------------------------------------ *)
(** ** The loop body, rule by rule

    What one run of the callback appends to [errors], as a list: these are
    compared with [validateEntry] below. *)

Definition entryLineNumber (indexOfFirstUsableLine : Z) (index : nat) : Z :=
  indexOfFirstUsableLine + Z.of_nat index + 2.

(** The condition of the second [if]. *)
Definition isInvalidSpecifier (v : Directive) : bool :=
  negb (Directive_eqb v SKIP_PACKAGE_DIRECTIVE)
  && negb (Directive_eqb v (Some INTENTIONALLY_SKIP_PACKAGE_DIRECTIVE))
  && negb (hasPropertyIncrementable v)
  && negb (isValidSemverDirective v).

Definition invalidSpecifierErrors (changedPackageName : string) (v : Directive)
  (line : Z) : list ValidationError :=
  if isInvalidSpecifier v
  then [mkError (InvalidVersionSpecifier v changedPackageName) (Some line)]
  else [].

Definition versionOrderErrors (pkg : Package) (changedPackageName : string)
  (v : Directive) (line : Z) : list ValidationError :=
  match v with
  | Some s =>
      if isValidSemver s then
        match parse s with
        | Some sv =>
            let comparison := compare sv (version (validatedManifest pkg)) in
            if comparison =? 0 then
              [mkError (AlreadyAtVersion s changedPackageName) (Some line)]
            else if comparison <? 0 then
              [mkError (AtGreaterVersion s changedPackageName
                          (version (validatedManifest pkg))) (Some line)]
            else []
        | None => []
        end
      else []
  | None => []
  end.

(** The condition of the dependents rule, for a package that exists. *)
Definition isMajorBump (pkg : Package) (v : Directive) : bool :=
  Directive_eqb v (Some "major")
  || (isValidSemverDirective v
      && diffIsMajor (version (validatedManifest pkg)) v).

Definition missingDependentsErrors (project : Project)
  (rawPackages : Obj.t Directive) (changedPackageName : string)
  : list ValidationError :=
  let missing := missingDependentNames project rawPackages changedPackageName in
  if 0 <? Z.of_nat (List.length missing)
  then [mkError (MissingDependents changedPackageName missing) None]
  else [].

(** The condition of the dependencies rule, [changedPackage] apart. *)
Definition isRelease (v : Directive) : bool :=
  truthy (Some v) && (hasPropertyIncrementable v || isValidSemverDirective v).

Definition missingDependenciesErrors (project : Project)
  (rawPackages : Obj.t Directive) (pkg : Package) (changedPackageName : string)
  (v : Directive) : list ValidationError :=
  if isRelease v then
    let missing := missingDependencies project rawPackages pkg in
    if 0 <? Z.of_nat (List.length missing)
    then [mkError (MissingDependencies changedPackageName missing) None]
    else []
  else [].

(** The callback throws exactly on an unknown package with a directive
    that is a version. *)
Definition entryThrows (project : Project) (changedPackageName : string)
  (v : Directive) : bool :=
  match Obj.get (workspacePackages project) changedPackageName with
  | None => isValidSemverDirective v
  | Some _ => false
  end.

(** What the callback appends when it does not throw. *)
Definition entryErrors (project : Project) (rawPackages : Obj.t Directive)
  (indexOfFirstUsableLine : Z) (changedPackageName : string) (v : Directive)
  (index : nat) : list ValidationError :=
  let line := entryLineNumber indexOfFirstUsableLine index in
  match Obj.get (workspacePackages project) changedPackageName with
  | None =>
      [mkError (NotAPackage changedPackageName) (Some line)]
      ++ invalidSpecifierErrors changedPackageName v line
      ++ (if Directive_eqb v (Some "major")
          then missingDependentsErrors project rawPackages changedPackageName
          else [])
  | Some pkg =>
      invalidSpecifierErrors changedPackageName v line
      ++ versionOrderErrors pkg changedPackageName v line
      ++ (if isMajorBump pkg v
          then missingDependentsErrors project rawPackages changedPackageName
          else [])
      ++ missingDependenciesErrors project rawPackages pkg changedPackageName v
  end.

Fixpoint collectErrors (project : Project) (rawPackages : Obj.t Directive)
  (indexOfFirstUsableLine : Z) (entries : Obj.t Directive) (index : nat)
  : list ValidationError :=
  match entries with
  | [] => []
  | (k, v) :: rest =>
      entryErrors project rawPackages indexOfFirstUsableLine k v index
      ++ collectErrors project rawPackages indexOfFirstUsableLine rest (S index)
  end.

Definition anyEntryThrows (project : Project) (entries : Obj.t Directive) : bool :=
  existsb (fun '(k, v) => entryThrows project k v) entries.

(** The entries the loop runs over, when the document reaches the loop. *)
Definition rawPackagesOf (parsed : option ParsedDocument)
  : option (Obj.t Directive) :=
  match parsed with
  | Some (Mapping (Some packagesValue)) => Object_entries packagesValue
  | _ => None
  end.

(** What [resolvePackages] stores for a raw directive that is a string
    other than ["intentionally-skip"]. *)
Definition resolved (s : string) : VersionSpecifier :=
  match includesIncrementable (Some s) with
  | Some part => Bump part
  | None => Exact (parse s)
  end.

(** A raw directive that [resolvePackages] keeps. *)
Definition released (rawPackages : Obj.t Directive) (k : string) (s : string)
  : Prop :=
  Obj.get rawPackages k = Some (Some s)
  /\ s <> INTENTIONALLY_SKIP_PACKAGE_DIRECTIVE.

(** Which [errors.push] site a message comes from. *)
Inductive MessageKind :=
| KNotAPackage
| KInvalidVersionSpecifier
| KAlreadyAtVersion
| KAtGreaterVersion
| KMissingDependents
| KMissingDependencies.

Definition kind (m : Message) : MessageKind :=
  match m with
  | NotAPackage _ => KNotAPackage
  | InvalidVersionSpecifier _ _ => KInvalidVersionSpecifier
  | AlreadyAtVersion _ _ => KAlreadyAtVersion
  | AtGreaterVersion _ _ _ => KAtGreaterVersion
  | MissingDependents _ _ => KMissingDependents
  | MissingDependencies _ _ => KMissingDependencies
  end.

(** The package a message is about. *)
Definition subject (m : Message) : string :=
  match m with
  | NotAPackage n => n
  | InvalidVersionSpecifier _ n => n
  | AlreadyAtVersion _ n => n
  | AtGreaterVersion _ n _ => n
  | MissingDependents n _ => n
  | MissingDependencies n _ => n
  end.

(** [possibleDependent] declares [changedPackageName] as a dependency or a
    peer dependency. *)
Definition declares (possibleDependent : Package) (changedPackageName : string)
  : Prop :=
  In changedPackageName
     (Obj.keys (dependencies (validatedManifest possibleDependent)))
  \/ In changedPackageName
       (Obj.keys (peerDependencies (validatedManifest possibleDependent))).

End WithSemver.

(* ------------------------------------------------------------------ *)
(** ** The line numbering the specification describes *)

Module SpecWording.






End SpecWording.

(* ------------------------------------------------------------------ *)
(** ** A small instance of the semver operations *)

Module SimpleSemver.

(** Modelled from the spec: the SemVer value type of [./semver] and the
    [semver] package, neither of which is part of the file under study.
    Versions are the strict three-component ones ([major.minor.patch], each
    a decimal number without leading zero); pre-release and build metadata
    are left out.  Ordering is component-wise, and [diff] names the first
    component that differs. *)
Definition V : Type := (N * N * N)%type.

Definition digit (c : ascii) : option N :=
  let n := N_of_ascii c in
  if (48 <=? n)%N && (n <=? 57)%N then Some (n - 48)%N else None.

Fixpoint digits (s : string) (acc : N) : option N :=
  match s with
  | EmptyString => Some acc
  | String c rest =>
      match digit c with
      | Some d => digits rest (10 * acc + d)%N
      | None => None
      end
  end.

Definition numericIdentifier (s : string) : option N :=
  match s with
  | EmptyString => None
  | String c EmptyString => digit c
  | String c _ => if Ascii.eqb c "0"%char then None else digits s 0%N
  end.

Fixpoint splitDots (s : string) : list string :=
  match s with
  | EmptyString => [EmptyString]
  | String c rest =>
      if Ascii.eqb c "."%char then EmptyString :: splitDots rest
      else match splitDots rest with
           | [] => [String c EmptyString]
           | part :: parts => String c part :: parts
           end
  end.

Definition parse (s : string) : option V :=
  match splitDots s with
  | [a; b; c] =>
      match numericIdentifier a, numericIdentifier b, numericIdentifier c with
      | Some x, Some y, Some z => Some (x, y, z)
      | _, _, _ => None
      end
  | _ => None
  end.

Definition isValidSemver (s : string) : bool :=
  match parse s with
  | Some _ => true
  | None => false
  end.

Definition sign (c : comparison) : Z :=
  match c with
  | Lt => -1
  | Eq => 0
  | Gt => 1
  end.

Definition compare (a b : V) : Z :=
  let '(a1, a2, a3) := a in
  let '(b1, b2, b3) := b in
  match N.compare a1 b1 with
  | Eq => match N.compare a2 b2 with
          | Eq => sign (N.compare a3 b3)
          | c => sign c
          end
  | c => sign c
  end.

Definition diff (current : V) (s : string) : option ReleaseType :=
  match parse s with
  | Some (b1, b2, b3) =>
      let '(a1, a2, a3) := current in
      if negb (N.eqb a1 b1) then Some RTmajor
      else if negb (N.eqb a2 b2) then Some RTminor
      else if negb (N.eqb a3 b3) then Some RTpatch
      else None
  | None => None
  end.

Definition isValidSemver_parse s :
  isValidSemver s = true -> exists v, parse s = Some v.
Proof.
  unfold isValidSemver. destruct (parse s) as [v|]; [eauto | discriminate].
Qed.

Definition isValidSemver_word s :
  In s [EmptyString; "intentionally-skip"] -> isValidSemver s = false.
Proof.
  simpl. intros [<-|[<-|[]]]; reflexivity.
Qed.

#[export] Instance lib : SemverLib :=
  Build_SemverLib isValidSemver parse compare diff
    isValidSemver_parse isValidSemver_word.

End SimpleSemver.

(* ------------------------------------------------------------------ *)
(** ** A small monorepo *)

Module Examples.

#[local] Existing Instance SimpleSemver.lib.

Definition package (n : string) (v : SimpleSemver.V)
  (deps peers : Obj.t string) (changed : bool) : @Package SimpleSemver.lib :=
  {| validatedManifest :=
       {| name := n; version := v; dependencies := deps;
          peerDependencies := peers |};
     hasChangesSinceLatestRelease := changed |}.

Definition a := package "a" (1, 0, 0)%N [] [] true.
Definition b := package "b" (1, 2, 3)%N [("a", "^1.0.0")] [] true.
Definition c := package "c" (2, 0, 0)%N [] [("b", "^1.0.0")] false.

(** [b] depends on [a], [c] has [b] as a peer dependency; [a] and [b] have
    changes since their latest release. *)
Definition project : @Project SimpleSemver.lib :=
  {| rootPackage := package "monorepo" (1, 0, 0)%N [] [] false;
     workspacePackages := [("a", a); ("b", b); ("c", c)] |}.


Definition renderDirective (v : Directive) : string :=
  match v with
  | None => "null"
  | Some s => quoted s
  end.

(** The text of a release spec with the given entries, one per line under
    the [packages] key, and what [YAML.parse] makes of it. *)
Definition text (entries : Obj.t Directive) : string :=
  joinLines
    ("packages:"
     :: map (fun '(k, v) =>
               String.append "  "
                 (String.append k (String.append ": " (renderDirective v))))
            entries
     ++ [EmptyString]).

Definition parsed (entries : Obj.t Directive) : option ParsedDocument :=
  Some (Mapping (Some (PackagesMapping entries))).







(** An unknown package with a version, then a second problem. *)
Definition unknownWithVersion : Obj.t Directive :=
  [("nope", Some "2.0.0"); ("c", Some "bogus")].

(** Three problems that do not make the loop throw: an unknown package, a
    value that is no directive, and a major bump without its dependent. *)
Definition threeProblems : Obj.t Directive :=
  [("nope", Some "minor"); ("c", Some "bogus"); ("a", Some "major")].

(** [b] listed at the version it already has. *)
Definition sameVersion : Obj.t Directive :=
  [("b", Some "1.2.3")].

(** A release of everything that changed. *)
Definition goodRelease : Obj.t Directive :=
  [("a", Some "minor"); ("b", Some "1.3.0"); ("c", None)].

(** What validating [goodRelease] returns. *)
Definition goodReleasePackages : Obj.t (@VersionSpecifier SimpleSemver.lib) :=
  [("a", Bump minor); ("b", Exact (Some (1, 3, 0)%N))].


(** The template generated for [project], as text. *)
Definition templateText : string :=
  match generateReleaseSpecificationTemplateForMonorepo text project true with
  | Template t => t
  | NoChangedPackagesError => EmptyString
  end.

End Examples.

(* ------------------------------------------------------------------ *)
(** ** Reading a report *)

Section Reports.

Context `{Semver : SemverLib}.

(** The line numbers a list of errors carries, in the order of the list. *)
Definition lineNumbers (errors : list ValidationError) : list Z :=
  flat_map (fun e => match lineNumber e with
                     | Some n => [n]
                     | None => []
                     end)
           errors.

(** An error with its line number, if it has one, moved by [d]. *)
Definition shiftLine (d : Z) (e : ValidationError) : ValidationError :=
  {| message := message e; lineNumber := option_map (Z.add d) (lineNumber e) |}.

(** What one raw entry contributes to [ReleaseSpecification.packages]. *)
Definition resolveEntry (entry : string * Directive) : Obj.t VersionSpecifier :=
  match snd entry with
  | Some s =>
      if String.eqb s INTENTIONALLY_SKIP_PACKAGE_DIRECTIVE then []
      else [(fst entry, resolved s)]
  | None => []
  end.

End Reports.

Fixpoint containsNewline (s : string) : bool :=
  match s with
  | EmptyString => false
  | String c rest => Ascii.eqb c Lines.newline || containsNewline rest
  end.

(* ------------------------------------------------------------------ *)
(** ** Rendering the collected errors

    The [flatMap] near the end of [validateReleaseSpecification], on the
    records the loop pushes: a [message] that is a string or an array of
    strings, and an optional [lineNumber]. *)

Module Report.

Inductive MessageText :=
| Text (s : string)
| TextLines (lines : list string).

Record Entry := {
  messageText : MessageText;
  line : option Z
}.

Definition itemPrefix : string := "* ".

(** [`${n}`] for an integer. *)
Definition numberToString (n : Z) : string :=
  NilEmpty.string_of_int (Z.to_int n).

(** [`Line ${error.lineNumber}: `] *)
Definition lineNumberPrefix (n : Z) : string :=
  String.append "Line " (String.append (numberToString n) ": ").

Fixpoint spaces (n : nat) : string :=
  match n with
  | O => EmptyString
  | S m => String Lines.space (spaces m)
  end.

(** [s.padStart(targetLength, ' ')] *)
Definition padStart (s : string) (targetLength : nat) : string :=
  String.append (spaces (targetLength - String.length s)) s.

(** [lines.join(separator)] *)
Fixpoint joinWith (separator : string) (lines : list string) : string :=
  match lines with
  | [] => EmptyString
  | [l] => l
  | l :: rest => String.append l (String.append separator (joinWith separator rest))
  end.

(** [`${error.message}`]: an array is converted with [toString], which
    joins its elements with commas. *)
Definition interpolate (m : MessageText) : string :=
  match m with
  | Text s => s
  | TextLines lines => joinWith "," lines
  end.

(** The callback of [errors.flatMap]. *)
Definition renderEntry (error : Entry) : list string :=
  match line error with
  | None => [String.append itemPrefix (interpolate (messageText error))]
  | Some n =>
      let lineNumberPrefix := lineNumberPrefix n in
      match messageText error with
      | TextLines lines =>
          String.append itemPrefix
            (String.append lineNumberPrefix
               (match lines with
                | first :: _ => first
                | [] => "undefined"
                end))
          :: map (fun l =>
                    let indentedLineLength :=
                      (String.length itemPrefix
                       + String.length lineNumberPrefix
                       + String.length l)%nat in
                    padStart l indentedLineLength)
                 (tl lines)
      | Text s =>
          [String.append itemPrefix (String.append lineNumberPrefix s)]
      end
  end.

(** [errors.flatMap(...)] *)
Definition renderEntries (errors : list Entry) : list string :=
  flat_map renderEntry errors.

(** [[...].join('\n\n')] of the afterword. *)
Definition afterwordForAllErrorMessages (releaseSpecificationPath : string)
  : string :=
  joinWith (String.append nl nl)
    ["The release spec file has been retained for you to edit again and make the necessary fixes. Once you've done this, re-run this tool.";
     releaseSpecificationPath].

(** The message of the error thrown when [errors] is not empty. *)
Definition thrownMessage (errors : list Entry) (releaseSpecificationPath : string)
  : string :=
  joinWith (String.append nl nl)
    ["Your release spec could not be processed due to the following issues:";
     joinWith nl (renderEntries errors);
     afterwordForAllErrorMessages releaseSpecificationPath].

End Report.

(* ------------------------------------------------------------------ *)
(** ** Helpers of the functional tests *)

Module MonorepoEnvironment.

Section RunTool.

(** [PackageSpecification] is declared in [./environment]; [runTool] reads
    only its [name]. *)
Variable PackageSpecification : Type.
Variable specificationName : PackageSpecification -> string.


(** [this.#packages[packageNickname].name], when the nickname is known. *)
Definition packageName (packages : Obj.t PackageSpecification)
  (packageNickname : string) : string :=
  match Obj.get packages packageNickname with
  | Some packageSpecification => specificationName packageSpecification
  | None => EmptyString
  end.

End RunTool.

End MonorepoEnvironment.

Module TestUtils.

(** Strings as sequences of UTF-16 code units, which is what [trim] and the
    patterns of [normalizeMultilineString] look at. *)
Definition CodeUnit := N.
Definition Str := list CodeUnit.

Definition LF : CodeUnit := 10%N.
Definition CR : CodeUnit := 13%N.
Definition SP : CodeUnit := 32%N.

(** [[\n\r]] *)
Definition isLineBreak (c : CodeUnit) : bool := N.eqb c LF || N.eqb c CR.

(** What [trim] removes: the white space and line terminator code
    points. *)
Definition isWhiteSpace (c : CodeUnit) : bool :=
  existsb (N.eqb c)
    [9; 10; 11; 12; 13; 32; 160; 5760; 8232; 8233; 8239; 8287; 12288; 65279]%N
  || ((8192 <=? c)%N && (c <=? 8202)%N).

Fixpoint dropWhile (p : CodeUnit -> bool) (s : Str) : Str :=
  match s with
  | [] => []
  | c :: rest => if p c then dropWhile p rest else s
  end.

Fixpoint takeWhile (p : CodeUnit -> bool) (s : Str) : Str :=
  match s with
  | [] => []
  | c :: rest => if p c then c :: takeWhile p rest else []
  end.

(** [s.split('\n')] *)
Fixpoint split (s : Str) : list Str :=
  match s with
  | [] => [[]]
  | c :: rest =>
      if N.eqb c LF then [] :: split rest
      else match split rest with
           | [] => [[c]]
           | l :: ls => (c :: l) :: ls
           end
  end.

(** [lines.join('\n')] *)
Fixpoint join (lines : list Str) : Str :=
  match lines with
  | [] => []
  | [l] => l
  | l :: rest => l ++ LF :: join rest
  end.

(** [s.trim()] *)
Definition trim (s : Str) : Str :=
  rev (dropWhile isWhiteSpace (rev (dropWhile isWhiteSpace s))).

Fixpoint startsWith (prefix s : Str) : bool :=
  match prefix, s with
  | [], _ => true
  | p :: prefix', c :: s' => N.eqb p c && startsWith prefix' s'
  | _ :: _, [] => false
  end.

(** [line.replace(new RegExp(`^${indentation}`, 'u'), '')], for an
    [indentation] made of spaces. *)
Definition removeIndentation (indentation line : Str) : Str :=
  if startsWith indentation line then skipn (List.length indentation) line
  else line.

(** [normalizeMultilineString] *)
Definition normalizeMultilineString (string : Str) : Str :=
  let lines :=
    split (rev (dropWhile isLineBreak (rev (dropWhile isLineBreak string)))) in
  let indentation :=
    match lines with
    | first :: _ => takeWhile (N.eqb SP) first
    | [] => []
    end in
  let normalizedString := trim (join (map (removeIndentation indentation) lines)) in
  normalizedString ++ [LF].

(** Neither begins nor ends with white space. *)
Definition trimmed (s : Str) : Prop :=
  dropWhile isWhiteSpace s = s /\ dropWhile isWhiteSpace (rev s) = rev s.

End TestUtils.

(* ------------------------------------------------------------------ *)
(** ** More documents for the small monorepo *)

Module MoreExamples.

#[local] Existing Instance SimpleSemver.lib.

(** What validating [Examples.threeProblems] reports. *)
Definition threeProblemsErrors : list (@ValidationError SimpleSemver.lib) :=
  [mkError (NotAPackage "nope") (Some 2);
   mkError (InvalidVersionSpecifier (Some "bogus") "c") (Some 3);
   mkError (MissingDependents "a" ["b"]) None].

(** Both changed packages are listed, [b] with a value that is no
    directive. *)
Definition everyChangedListed : Obj.t Directive :=
  [("a", Some "major"); ("b", Some "bogus")].

Definition everyChangedListedErrors : list (@ValidationError SimpleSemver.lib) :=
  [mkError (InvalidVersionSpecifier (Some "bogus") "b") (Some 3)].

(** The [packages] object of the template generated for
    [Examples.project]. *)
Definition untouchedTemplate : Obj.t Directive :=
  [("a", None); ("b", None)].

Definition nothingReleased : @ReleaseSpecification SimpleSemver.lib :=
  {| packages := []; path := "release-spec.yml" |}.



End MoreExamples.

(* ------------------------------------------------------------------ *)
(** * Properties *)

(** ** Objects *)

Unset Implicit Arguments.

Lemma Obj_get_In V (obj : Obj.t V) k v :
  Obj.get obj k = Some v -> In (k, v) obj.
Proof.
  induction obj as [|[k' v'] rest IH]; simpl; [discriminate|].
  destruct (String.eqb k' k) eqn:E.
  - apply String.eqb_eq in E. intros [= ->]. left. now subst.
  - intro Hget. right. now apply IH.
Qed.

Lemma Obj_get_keys V (obj : Obj.t V) k :
  In k (Obj.keys obj) <-> exists v, Obj.get obj k = Some v.
Proof.
  unfold Obj.keys. induction obj as [|[k' v'] rest IH]; simpl.
  - split; [tauto | intros [v Hv]; discriminate].
  - destruct (String.eqb k' k) eqn:E.
    + apply String.eqb_eq in E. split; [eauto | auto].
    + apply String.eqb_neq in E. rewrite <- IH. tauto.
Qed.

Lemma Obj_hasProperty_keys V (obj : Obj.t V) k :
  Obj.hasProperty obj k = true <-> In k (Obj.keys obj).
Proof.
  unfold Obj.hasProperty. rewrite existsb_exists. split.
  - intros [x [Hin Heq]]. apply String.eqb_eq in Heq. now subst.
  - intro Hin. exists k. split; [assumption | apply String.eqb_refl].
Qed.

Lemma Obj_spreadKeys_In V W (a : Obj.t V) (b : Obj.t W) k :
  In k (Obj.spreadKeys a b) <-> In k (Obj.keys a) \/ In k (Obj.keys b).
Proof.
  unfold Obj.spreadKeys. rewrite <- in_app_iff.
  assert (G : forall l acc,
             In k (fold_left
                     (fun acc k0 =>
                        if existsb (String.eqb k0) acc then acc else acc ++ [k0])
                     l acc)
             <-> In k acc \/ In k l).
  { induction l as [|x l IH]; intro acc; simpl; [tauto|].
    rewrite IH. destruct (existsb (String.eqb x) acc) eqn:E.
    - apply existsb_exists in E. destruct E as [y [Hy Hxy]].
      apply String.eqb_eq in Hxy. subst y.
      split; [tauto | intros [?|[?|?]]; subst; auto].
    - rewrite in_app_iff. simpl. tauto. }
  rewrite G. simpl. tauto.
Qed.

Lemma Obj_set_In V (obj : Obj.t V) k v k' v' :
  In (k', v') (Obj.set obj k v) -> (k' = k /\ v' = v) \/ In (k', v') obj.
Proof.
  induction obj as [|[k0 v0] rest IH]; simpl.
  - intros [[= <- <-]|[]]. auto.
  - destruct (String.eqb k0 k) eqn:E; simpl.
    + apply String.eqb_eq in E. subst k0. intros [[= <- <-]|Hin]; auto.
    + intros [Heq|Hin]; [auto|]. destruct (IH Hin); auto.
Qed.

Lemma Obj_set_keys V (obj : Obj.t V) k v k' :
  In k' (Obj.keys (Obj.set obj k v)) <-> k' = k \/ In k' (Obj.keys obj).
Proof.
  unfold Obj.keys. induction obj as [|[k0 v0] rest IH]; simpl.
  - intuition.
  - destruct (String.eqb k0 k) eqn:E; simpl.
    + apply String.eqb_eq in E. subst k0. intuition.
    + rewrite IH. intuition.
Qed.

Lemma Obj_set_NoDup V (obj : Obj.t V) k v :
  NoDup (Obj.keys obj) -> NoDup (Obj.keys (Obj.set obj k v)).
Proof.
  induction obj as [|[k0 v0] rest IH]; simpl.
  - intros _. constructor; [simpl; tauto | constructor].
  - intro Hnd. inversion Hnd as [|? ? Hnotin Hnd']; subst.
    destruct (String.eqb k0 k) eqn:E; simpl.
    + constructor; assumption.
    + apply String.eqb_neq in E. constructor; [|now apply IH].
      intro Hin. apply (Obj_set_keys V rest k v k0) in Hin.
      destruct Hin as [Heq|Hin]; [now apply E | now apply Hnotin].
Qed.

Lemma Obj_set_fresh V (obj : Obj.t V) k v :
  ~ In k (Obj.keys obj) -> Obj.set obj k v = obj ++ [(k, v)].
Proof.
  induction obj as [|[k0 v0] rest IH]; simpl; [reflexivity|].
  intro Hnotin. destruct (String.eqb k0 k) eqn:E.
  - apply String.eqb_eq in E. tauto.
  - f_equal. apply IH. tauto.
Qed.

Section Properties.

Context `{Semver : SemverLib}.

(** ** The loop body against its rule-by-rule reading *)

Lemma isValidSemverDirective_parse v :
  isValidSemverDirective v = true ->
  exists s sv, v = Some s /\ isValidSemver s = true /\ parse s = Some sv.
Proof.
  destruct v as [s|]; simpl; [|discriminate].
  intro Hv. destruct (isValidSemver_parse s Hv) as [sv Hsv]. eauto.
Qed.

Lemma validateEntry_run project rawPackages first k v index errors :
  validateEntry project rawPackages first k v index errors
  = if entryThrows project k v then ThrewTypeError
    else Returned
           (tt, errors ++ entryErrors project rawPackages first k v index).
Proof.
  unfold validateEntry, entryThrows, entryErrors, entryLineNumber.
  unfold invalidSpecifierErrors, missingDependentsErrors,
    missingDependenciesErrors, versionOrderErrors, isMajorBump, isRelease,
    isInvalidSpecifier.
  destruct (Obj.get (workspacePackages project) k) as [pkg|];
    destruct (isValidSemverDirective v) eqn:Hvalid.
  all: try (destruct (isValidSemverDirective_parse v Hvalid)
             as (s & sv & -> & Hs & Hsv); simpl in Hvalid).
  all: try (destruct v as [s|]; simpl in Hvalid).
  all: unfold bind, when, ret, push, deref, newSemVer, throwTypeError; simpl.
  all: rewrite ?Hs, ?Hsv, ?Hvalid; simpl.
  all: repeat match goal with
         | |- context [if ?b then _ else _] => destruct b; simpl
         end.
  all: rewrite <- ?app_assoc, ?app_nil_r; simpl; try reflexivity.
Qed.

Lemma forEachEntry_run project rawPackages first entries index errors :
  forEachEntry (validateEntry project rawPackages first) entries index errors
  = if anyEntryThrows project entries then ThrewTypeError
    else Returned
           (tt, errors ++ collectErrors project rawPackages first entries index).
Proof.
  revert index errors.
  induction entries as [|[k v] rest IH]; intros index errors; simpl.
  - unfold ret. now rewrite app_nil_r.
  - unfold bind. rewrite validateEntry_run.
    destruct (entryThrows project k v); simpl; [reflexivity|].
    rewrite IH. unfold anyEntryThrows.
    destruct (existsb _ rest); [reflexivity|].
    now rewrite app_assoc.
Qed.

(** The whole validation, with the loop replaced by what it computes. *)
Lemma validateReleaseSpecification_run project path contents parsed :
  validateReleaseSpecification project path contents parsed
  = match parsed with
    | None => InvalidYamlError
    | Some NotAMapping | Some (Mapping None) => NotAnObjectWithPackagesError
    | Some (Mapping (Some packagesValue)) =>
        match Object_entries packagesValue with
        | None => UncaughtTypeError
        | Some rawPackages =>
            if anyEntryThrows project rawPackages then UncaughtTypeError
            else
              match collectErrors project rawPackages
                      (Lines.indexOfFirstUsableLine contents) rawPackages 0 with
              | [] => Validated {| packages := resolvePackages rawPackages;
                                   path := path |}
              | errors => ReleaseSpecificationError errors
              end
        end
    end.
Proof.
  unfold validateReleaseSpecification.
  destruct parsed as [[|[packagesValue|]]|]; try reflexivity.
  destruct (Object_entries packagesValue) as [rawPackages|]; [|reflexivity].
  rewrite forEachEntry_run.
  destruct (anyEntryThrows project rawPackages); [reflexivity|]. simpl.
  destruct (collectErrors _ _ _ _ _); reflexivity.
Qed.

Lemma collectErrors_In project rawPackages first entries index e :
  In e (collectErrors project rawPackages first entries index)
  <-> exists j k v,
        nth_error entries j = Some (k, v)
        /\ In e (entryErrors project rawPackages first k v (index + j)).
Proof.
  revert index. induction entries as [|[k v] rest IH]; intro index; simpl.
  - split; [tauto|]. intros (j & k & v & Hnth & _). now destruct j.
  - rewrite in_app_iff, IH. split.
    + intros [Hin | (j & k' & v' & Hnth & Hin)].
      * exists 0%nat, k, v. now rewrite Nat.add_0_r.
      * exists (S j), k', v'. now rewrite Nat.add_succ_r.
    + intros (j & k' & v' & Hnth & Hin). destruct j as [|j]; simpl in Hnth.
      * injection Hnth as <- <-. rewrite Nat.add_0_r in Hin. now left.
      * right. exists j, k', v'. now rewrite Nat.add_succ_r in Hin.
Qed.

Lemma anyEntryThrows_iff project entries :
  anyEntryThrows project entries = true
  <-> exists k v,
        In (k, v) entries
        /\ Obj.get (workspacePackages project) k = None
        /\ isValidSemverDirective v = true.
Proof.
  unfold anyEntryThrows. rewrite existsb_exists. split.
  - intros [[k v] [Hin Hthrows]]. exists k, v. unfold entryThrows in Hthrows.
    destruct (Obj.get (workspacePackages project) k); [discriminate | auto].
  - intros (k & v & Hin & Hget & Hvalid). exists (k, v).
    unfold entryThrows. now rewrite Hget.
Qed.

(** Every error of an entry is about that entry's package, and carries the
    entry's line number if it carries one. *)
Lemma entryErrors_subject project rawPackages first k v index e :
  In e (entryErrors project rawPackages first k v index) ->
  subject (message e) = k
  /\ (forall n, lineNumber e = Some n -> n = entryLineNumber first index).
Proof.
  unfold entryErrors, invalidSpecifierErrors, versionOrderErrors,
    missingDependentsErrors, missingDependenciesErrors.
  intro Hin.
  repeat match type of Hin with
         | context [match ?x with _ => _ end] => destruct x
         end;
    repeat (rewrite in_app_iff in Hin; simpl in Hin);
    simpl in Hin; intuition (subst; simpl in *; congruence).
Qed.

Lemma validateEntry_known project rawPackages first k v index pkg errors :
  Obj.get (workspacePackages project) k = Some pkg ->
  validateEntry project rawPackages first k v index errors
  = Returned (tt, errors ++ entryErrors project rawPackages first k v index).
Proof.
  intro Hget. rewrite validateEntry_run. unfold entryThrows. now rewrite Hget.
Qed.



Lemma hasChanges_iff project d :
  hasChanges project d = true
  <-> exists pkg, Obj.get (workspacePackages project) d = Some pkg
                  /\ hasChangesSinceLatestRelease pkg = true.
Proof.
  unfold hasChanges. destruct (Obj.get (workspacePackages project) d) as [pkg|].
  - split; [eauto | now intros (p & [= <-] & Hp)].
  - split; [discriminate | now intros (p & Hp & _)].
Qed.

(** Who the dependents rule names. *)
Lemma missingDependentNames_In project rawPackages k d :
  In d (missingDependentNames project rawPackages k)
  <-> (exists dependent,
         Obj.get (workspacePackages project) d = Some dependent
         /\ declares dependent k
         /\ hasChangesSinceLatestRelease dependent = true)
      /\ truthy (Obj.get rawPackages d) = false.
Proof.
  unfold missingDependentNames, changedDependentNames, dependentNames, declares.
  rewrite !filter_In, negb_true_iff, hasChanges_iff, Obj_get_keys.
  split.
  - intros [[[[dependent Hget] Hdecl] (p & Hp & Hch)] Hfalsy].
    rewrite Hget in Hdecl, Hp. injection Hp as <-.
    apply orb_true_iff in Hdecl. rewrite !Obj_hasProperty_keys in Hdecl.
    split; [exists dependent | ]; auto.
  - intros [(dependent & Hget & Hdecl & Hch) Hfalsy].
    rewrite Hget. rewrite orb_true_iff, !Obj_hasProperty_keys. eauto 10.
Qed.

(** Who the dependencies rule names. *)
Lemma missingDependencies_In project rawPackages pkg d :
  In d (missingDependencies project rawPackages pkg)
  <-> declares pkg d
      /\ (exists dependency,
            Obj.get (workspacePackages project) d = Some dependency
            /\ hasChangesSinceLatestRelease dependency = true)
      /\ truthy (Obj.get rawPackages d) = false.
Proof.
  unfold missingDependencies, declares.
  rewrite filter_In, Obj_spreadKeys_In, andb_true_iff, negb_true_iff,
    hasChanges_iff.
  tauto.
Qed.

Lemma length_positive A (l : list A) :
  (0 <? Z.of_nat (List.length l)) = true <-> l <> [].
Proof.
  destruct l; simpl; split; try congruence; try reflexivity.
  intro Hf. discriminate.
Qed.

(** ** Which rule an error comes from *)

Lemma invalidSpecifierErrors_In k v line e :
  In e (invalidSpecifierErrors k v line) ->
  e = mkError (InvalidVersionSpecifier v k) (Some line)
  /\ isInvalidSpecifier v = true.
Proof.
  unfold invalidSpecifierErrors.
  destruct (isInvalidSpecifier v); simpl; intuition.
Qed.

Lemma missingDependentsErrors_In project rawPackages k e :
  In e (missingDependentsErrors project rawPackages k) ->
  e = mkError (MissingDependents k (missingDependentNames project rawPackages k))
        None
  /\ missingDependentNames project rawPackages k <> [].
Proof.
  unfold missingDependentsErrors.
  destruct (0 <? _) eqn:E; simpl; [|tauto].
  apply length_positive in E. intuition.
Qed.

Lemma missingDependenciesErrors_In project rawPackages pkg k v e :
  In e (missingDependenciesErrors project rawPackages pkg k v) ->
  e = mkError (MissingDependencies k (missingDependencies project rawPackages pkg))
        None
  /\ missingDependencies project rawPackages pkg <> []
  /\ isRelease v = true.
Proof.
  unfold missingDependenciesErrors.
  destruct (isRelease v); simpl; [|tauto].
  destruct (0 <? _) eqn:E; simpl; [|tauto].
  apply length_positive in E. intuition.
Qed.

Lemma versionOrderErrors_In pkg k v line e :
  In e (versionOrderErrors pkg k v line) ->
  exists s sv,
    v = Some s /\ isValidSemver s = true /\ parse s = Some sv
    /\ let current := version (validatedManifest pkg) in
       (e = mkError (AlreadyAtVersion s k) (Some line)
        /\ compare sv current = 0)
       \/ (e = mkError (AtGreaterVersion s k current) (Some line)
           /\ compare sv current < 0).
Proof.
  unfold versionOrderErrors. destruct v as [s|]; [|contradiction].
  destruct (isValidSemver s) eqn:Hs; [|contradiction].
  destruct (parse s) as [sv|] eqn:Hsv; [|contradiction].
  intro Hin. exists s, sv. repeat split; try assumption. simpl.
  destruct (Z.eqb_spec (compare sv (version (validatedManifest pkg))) 0)
    as [Heq|Hne].
  - destruct Hin as [<-|[]]. now left.
  - destruct (Z.ltb_spec (compare sv (version (validatedManifest pkg))) 0)
      as [Hlt|Hge]; [|contradiction].
    destruct Hin as [<-|[]]. now right.
Qed.

(** The errors of an entry whose package exists, taken apart. *)
Lemma entryErrors_known_In project rawPackages first k v index pkg e :
  Obj.get (workspacePackages project) k = Some pkg ->
  In e (entryErrors project rawPackages first k v index) <->
  In e (invalidSpecifierErrors k v (entryLineNumber first index))
  \/ In e (versionOrderErrors pkg k v (entryLineNumber first index))
  \/ (isMajorBump pkg v = true
      /\ In e (missingDependentsErrors project rawPackages k))
  \/ In e (missingDependenciesErrors project rawPackages pkg k v).
Proof.
  intro Hget. unfold entryErrors. rewrite Hget, !in_app_iff.
  destruct (isMajorBump pkg v); simpl; intuition congruence.
Qed.

(** C6: for an entry of a known package whose directive is an explicit
    version, the validator records the "already at this version" error
    when the version equals the package's current one, the "at a greater
    version" error when it is less, and neither when it is strictly
    greater. *)
Theorem explicit_version_must_increase
  project rawPackages first k s index pkg errors :
  Obj.get (workspacePackages project) k = Some pkg ->
  isValidSemver s = true ->
  exists sv new,
    parse s = Some sv
    /\ validateEntry project rawPackages first k (Some s) index errors
       = Returned (tt, errors ++ new)
    /\ let current := version (validatedManifest pkg) in
       let line := Some (entryLineNumber first index) in
       (compare sv current = 0 ->
        In (mkError (AlreadyAtVersion s k) line) new
        /\ forall e, In e new -> kind (message e) <> KAtGreaterVersion)
       /\ (compare sv current < 0 ->
           In (mkError (AtGreaterVersion s k current) line) new
           /\ forall e, In e new -> kind (message e) <> KAlreadyAtVersion)
       /\ (0 < compare sv current ->
           forall e, In e new ->
                     kind (message e) <> KAlreadyAtVersion
                     /\ kind (message e) <> KAtGreaterVersion).
Proof.
  intros Hget Hs. destruct (isValidSemver_parse s Hs) as [sv Hsv].
  exists sv, (entryErrors project rawPackages first k (Some s) index).
  split; [assumption|].
  split; [now apply validateEntry_known with (pkg := pkg)|].
  assert (Hkinds : forall e,
             In e (entryErrors project rawPackages first k (Some s) index) ->
             (kind (message e) = KAlreadyAtVersion ->
              compare sv (version (validatedManifest pkg)) = 0)
             /\ (kind (message e) = KAtGreaterVersion ->
                 compare sv (version (validatedManifest pkg)) < 0)).
  { intros e Hin. apply (entryErrors_known_In project rawPackages first k (Some s) index pkg e Hget) in Hin.
    destruct Hin as [Hin|[Hin|[[_ Hin]|Hin]]].
    - apply invalidSpecifierErrors_In in Hin. destruct Hin as [-> _].
      split; discriminate.
    - apply versionOrderErrors_In in Hin.
      destruct Hin as (s' & sv' & [= <-] & _ & Hsv' & Hcase).
      rewrite Hsv in Hsv'. injection Hsv' as <-.
      destruct Hcase as [[-> Hc]|[-> Hc]]; split; simpl; auto; discriminate.
    - apply missingDependentsErrors_In in Hin. destruct Hin as [-> _].
      split; discriminate.
    - apply missingDependenciesErrors_In in Hin. destruct Hin as [-> _].
      split; discriminate. }
  assert (Horder : forall e,
             In e (versionOrderErrors pkg k (Some s)
                     (entryLineNumber first index)) ->
             In e (entryErrors project rawPackages first k (Some s) index)).
  { intros e Hin. apply (entryErrors_known_In project rawPackages first k (Some s) index pkg e Hget). auto. }
  simpl. split; [|split].
  - intro Hc. split.
    + apply Horder. unfold versionOrderErrors. rewrite Hs, Hsv. simpl.
      rewrite Hc. simpl. now left.
    + intros e Hin Hk. apply Hkinds in Hin. destruct Hin as [_ Hlt].
      specialize (Hlt Hk). lia.
  - intro Hc. split.
    + apply Horder. unfold versionOrderErrors. rewrite Hs, Hsv. simpl.
      destruct (Z.eqb_spec (compare sv (version (validatedManifest pkg))) 0);
        [lia|].
      destruct (Z.ltb_spec (compare sv (version (validatedManifest pkg))) 0);
        [now left | lia].
    + intros e Hin Hk. apply Hkinds in Hin. destruct Hin as [Heq _].
      specialize (Heq Hk). lia.
  - intros Hc e Hin. apply Hkinds in Hin. destruct Hin as [Heq Hlt].
    split; intro Hk; [specialize (Heq Hk) | specialize (Hlt Hk)]; lia.
Qed.






(** C10: a document with an entry whose package name is not in
    [workspacePackages] and whose directive is a valid version makes
    [validateReleaseSpecification] end in an uncaught [TypeError] instead
    of the aggregated error; and there is no other way for a document whose
    [packages] is a mapping to end so: when every listed name is a
    workspace package, the [TypeError] does not occur. *)
Theorem unknown_package_with_version_throws project path contents rawPackages :
  ((exists k v,
       In (k, v) rawPackages
       /\ Obj.get (workspacePackages project) k = None
       /\ isValidSemverDirective v = true) ->
   validateReleaseSpecification project path contents
     (Some (Mapping (Some (PackagesMapping rawPackages))))
   = UncaughtTypeError)
  /\ ((forall k v,
          In (k, v) rawPackages ->
          Obj.get (workspacePackages project) k <> None) ->
      validateReleaseSpecification project path contents
        (Some (Mapping (Some (PackagesMapping rawPackages))))
      <> UncaughtTypeError).
Proof.
  rewrite validateReleaseSpecification_run. simpl. split.
  - intro Hex. apply anyEntryThrows_iff in Hex. now rewrite Hex.
  - intro Hknown.
    destruct (anyEntryThrows project rawPackages) eqn:Hthrows.
    + apply anyEntryThrows_iff in Hthrows.
      destruct Hthrows as (k & v & Hin & Hget & _).
      now destruct (Hknown k v Hin).
    + destruct (collectErrors _ _ _ _ _); discriminate.
Qed.

(** ** Line numbers *)

Lemma findIndexFrom_first p pre line post i :
  (forall l, In l pre -> p l = false) ->
  p line = true ->
  Lines.findIndexFrom p (pre ++ line :: post) i = i + Z.of_nat (List.length pre).
Proof.
  revert i. induction pre as [|l pre IH]; intros i Hpre Hline; simpl.
  - rewrite Hline. lia.
  - rewrite (Hpre l (or_introl eq_refl)).
    rewrite IH; [lia | intros; apply Hpre; now right | assumption].
Qed.


(** ** The validated specification *)

Arguments String.eqb : simpl never.

Lemma includesIncrementable_Some s part :
  includesIncrementable (Some s) = Some part ->
  s = IncrementableVersionParts_name part.
Proof.
  unfold includesIncrementable. intro Hfind. apply find_some in Hfind.
  destruct Hfind as [_ Heq]. cbn -[String.eqb] in Heq.
  apply String.eqb_eq in Heq. now subst.
Qed.

Lemma includesIncrementable_None s :
  includesIncrementable (Some s) = None ->
  hasPropertyIncrementable (Some s) = false.
Proof.
  unfold includesIncrementable, hasPropertyIncrementable, Obj.hasProperty.
  cbn -[String.eqb]. rewrite !(String.eqb_sym s).
  destruct (String.eqb "major" s); [intro Hf; discriminate Hf|].
  destruct (String.eqb "minor" s); [intro Hf; discriminate Hf|].
  destruct (String.eqb "patch" s); [intro Hf; discriminate Hf|]. reflexivity.
Qed.

Lemma resolvePackages_fold rawPackages l acc k vs :
  (forall k', In k' l -> In k' (Obj.keys rawPackages)) ->
  In (k, vs)
     (fold_left
        (fun obj packageName =>
           match Obj.get rawPackages packageName with
           | Some None => obj
           | Some (Some s) =>
               if String.eqb s INTENTIONALLY_SKIP_PACKAGE_DIRECTIVE then obj
               else match includesIncrementable (Some s) with
                    | Some part => Obj.set obj packageName (Bump part)
                    | None => Obj.set obj packageName (Exact (parse s))
                    end
           | None => Obj.set obj packageName (Exact None)
           end)
        l acc) ->
  In (k, vs) acc
  \/ exists s, In k l /\ released rawPackages k s /\ vs = resolved s.
Proof.
  revert acc. induction l as [|x l IH]; intros acc Hkeys; cbn [fold_left]; [auto|].
  intro Hin. apply IH in Hin; [|intros; apply Hkeys; now right].
  destruct Hin as [Hin|(s & Hl & Hrel & Hvs)];
    [|right; exists s; simpl; auto].
  assert (Hx : In x (Obj.keys rawPackages)) by (apply Hkeys; now left).
  apply Obj_get_keys in Hx. destruct Hx as [d Hd]. rewrite Hd in Hin.
  destruct d as [s|]; [|now left].
  destruct (String.eqb s INTENTIONALLY_SKIP_PACKAGE_DIRECTIVE) eqn:Hskip;
    [now left|].
  apply String.eqb_neq in Hskip.
  assert (Hset : In (k, vs) (Obj.set acc x (resolved s))).
  { unfold resolved. destruct (includesIncrementable (Some s)); exact Hin. }
  apply Obj_set_In in Hset. destruct Hset as [[-> ->]|Hacc]; [|now left].
  right. exists s. split; [now left|]. split; [split; assumption|reflexivity].
Qed.

Lemma resolvePackages_In rawPackages k vs :
  In (k, vs) (resolvePackages rawPackages) ->
  exists s, released rawPackages k s /\ vs = resolved s.
Proof.
  intro Hin. apply resolvePackages_fold in Hin; [|auto].
  destruct Hin as [[]|(s & _ & Hrel & Hvs)]. eauto.
Qed.

Lemma resolvePackages_fold_keys rawPackages l acc k :
  (forall k', In k' l -> In k' (Obj.keys rawPackages)) ->
  In k (Obj.keys
          (fold_left
             (fun obj packageName =>
                match Obj.get rawPackages packageName with
                | Some None => obj
                | Some (Some s) =>
                    if String.eqb s INTENTIONALLY_SKIP_PACKAGE_DIRECTIVE then obj
                    else match includesIncrementable (Some s) with
                         | Some part => Obj.set obj packageName (Bump part)
                         | None => Obj.set obj packageName (Exact (parse s))
                         end
                | None => Obj.set obj packageName (Exact None)
                end)
             l acc))
  <-> In k (Obj.keys acc) \/ (In k l /\ exists s, released rawPackages k s).
Proof.
  revert acc. induction l as [|x l IH]; intros acc Hkeys; cbn [fold_left].
  - split; [auto | intros [?|[[] _]]; assumption].
  - rewrite IH; [|intros; apply Hkeys; now right].
    assert (Hx : In x (Obj.keys rawPackages)) by (apply Hkeys; now left).
    apply Obj_get_keys in Hx. destruct Hx as [d Hd]. rewrite Hd.
    assert (Hskipped : (forall s, ~ released rawPackages x s) ->
              In k (Obj.keys acc) \/ (In k l /\ exists s, released rawPackages k s)
              <-> In k (Obj.keys acc)
                  \/ ((x = k \/ In k l) /\ exists s, released rawPackages k s)).
    { intro Hno. split; [tauto|].
      intros [?|[[->|?] [s Hs]]]; [tauto | now destruct (Hno s) | eauto]. }
    destruct d as [s|].
    + destruct (String.eqb s INTENTIONALLY_SKIP_PACKAGE_DIRECTIVE) eqn:Hskip.
      * apply String.eqb_eq in Hskip. apply Hskipped.
        intros s' [Hget Hne].
        pose proof (eq_trans (eq_sym Hd) Hget) as Heq. congruence.
      * apply String.eqb_neq in Hskip.
        assert (Hrel : released rawPackages x s) by (split; assumption).
        assert (Hset : forall w,
                   In k (Obj.keys (Obj.set acc x w))
                   \/ (In k l /\ exists s, released rawPackages k s)
                   <-> In k (Obj.keys acc)
                       \/ ((x = k \/ In k l)
                           /\ exists s, released rawPackages k s)).
        { intro w. rewrite Obj_set_keys. split.
          - intros [[->|?]|[? ?]]; eauto 6.
          - intros [?|[[->|?] ?]]; auto. }
        destruct (includesIncrementable (Some s)); apply Hset.
    + apply Hskipped. intros s' [Hget _].
      pose proof (eq_trans (eq_sym Hd) Hget) as Heq. discriminate.
Qed.

Lemma resolvePackages_keys rawPackages k :
  In k (Obj.keys (resolvePackages rawPackages))
  <-> exists s, released rawPackages k s.
Proof.
  unfold resolvePackages. rewrite resolvePackages_fold_keys; [|auto].
  simpl. split.
  - intros [[]|[_ Hs]]. exact Hs.
  - intros [s Hs]. right. split; [|eauto].
    destruct Hs as [Hget _]. apply Obj_get_keys. eauto.
Qed.

Lemma resolvePackages_NoDup rawPackages :
  NoDup (Obj.keys (resolvePackages rawPackages)).
Proof.
  unfold resolvePackages.
  assert (G : forall l acc,
             NoDup (Obj.keys acc) ->
             NoDup
               (Obj.keys
                  (fold_left
                     (fun obj packageName =>
                        match Obj.get rawPackages packageName with
                        | Some None => obj
                        | Some (Some s) =>
                            if String.eqb s INTENTIONALLY_SKIP_PACKAGE_DIRECTIVE
                            then obj
                            else match includesIncrementable (Some s) with
                                 | Some part =>
                                     Obj.set obj packageName (Bump part)
                                 | None =>
                                     Obj.set obj packageName (Exact (parse s))
                                 end
                        | None => Obj.set obj packageName (Exact None)
                        end)
                     l acc))).
  { induction l as [|x l IH]; intros acc Hacc; cbn [fold_left]; [assumption|].
    apply IH.
    destruct (Obj.get rawPackages x) as [[s|]|];
      [|assumption|now apply Obj_set_NoDup].
    destruct (String.eqb s INTENTIONALLY_SKIP_PACKAGE_DIRECTIVE);
      [assumption|].
    destruct (includesIncrementable (Some s)); now apply Obj_set_NoDup. }
  apply G. constructor.
Qed.

Lemma collectErrors_nil project rawPackages first entries index k v :
  collectErrors project rawPackages first entries index = [] ->
  In (k, v) entries ->
  exists j, entryErrors project rawPackages first k v j = [].
Proof.
  revert index. induction entries as [|[k' v'] rest IH]; intros index;
    cbn [collectErrors]; [contradiction|].
  intros Hnil [Heq|Hin]; apply app_eq_nil in Hnil; destruct Hnil as [Hhd Htl].
  - injection Heq as <- <-. eauto.
  - eapply IH; eauto.
Qed.

Lemma entryErrors_nil project rawPackages first k v index :
  entryErrors project rawPackages first k v index = [] ->
  exists pkg,
    Obj.get (workspacePackages project) k = Some pkg
    /\ isInvalidSpecifier v = false
    /\ versionOrderErrors pkg k v (entryLineNumber first index) = [].
Proof.
  unfold entryErrors.
  destruct (Obj.get (workspacePackages project) k) as [pkg|];
    [|intro Hf; discriminate Hf].
  intro Hnil. apply app_eq_nil in Hnil. destruct Hnil as [Hinvalid Hrest].
  apply app_eq_nil in Hrest. destruct Hrest as [Horder _].
  exists pkg. repeat split; try assumption.
  unfold invalidSpecifierErrors in Hinvalid.
  destruct (isInvalidSpecifier v); [discriminate | reflexivity].
Qed.

(** C7: a [ReleaseSpecification] returned by a successful validation holds
    no package whose raw directive was [null] or ["intentionally-skip"];
    each of its keys is a key of [workspacePackages]; and each value is a
    member of the bump-kind enum or a parsed version strictly greater than
    the current version of that package. *)
Theorem validated_specification_invariants
  project releaseSpecificationPath contents parsed spec :
  validateReleaseSpecification project releaseSpecificationPath contents parsed
  = Validated spec ->
  exists rawPackages,
    rawPackagesOf parsed = Some rawPackages
    /\ path spec = releaseSpecificationPath
    /\ NoDup (Obj.keys (packages spec))
    /\ (forall k,
           In k (Obj.keys (packages spec)) <->
           exists s,
             Obj.get rawPackages k = Some (Some s)
             /\ s <> INTENTIONALLY_SKIP_PACKAGE_DIRECTIVE)
    /\ (forall k vs,
           In (k, vs) (packages spec) ->
           exists pkg s,
             Obj.get (workspacePackages project) k = Some pkg
             /\ Obj.get rawPackages k = Some (Some s)
             /\ s <> INTENTIONALLY_SKIP_PACKAGE_DIRECTIVE
             /\ ((exists part,
                     vs = Bump part
                     /\ s = IncrementableVersionParts_name part)
                 \/ (exists sv,
                        vs = Exact (Some sv)
                        /\ isValidSemver s = true
                        /\ parse s = Some sv
                        /\ 0 < compare sv (version (validatedManifest pkg))))).
Proof.
  rewrite validateReleaseSpecification_run.
  destruct parsed as [[|[packagesValue|]]|]; try discriminate.
  cbn [rawPackagesOf].
  destruct (Object_entries packagesValue) as [rawPackages|]; [|discriminate].
  destruct (anyEntryThrows project rawPackages); [discriminate|].
  destruct (collectErrors project rawPackages
              (Lines.indexOfFirstUsableLine contents) rawPackages 0)
    as [|e errors] eqn:Hcollect; [|discriminate].
  intros [= <-]. exists rawPackages. cbn [packages path].
  split; [reflexivity|]. split; [reflexivity|].
  split; [apply resolvePackages_NoDup|].
  split; [intro k; apply resolvePackages_keys|].
  intros k vs Hin. apply resolvePackages_In in Hin.
  destruct Hin as (s & [Hget Hskip] & ->).
  destruct (collectErrors_nil _ _ _ _ _ k (Some s) Hcollect
              (Obj_get_In _ _ _ _ Hget)) as [j Hentry].
  apply entryErrors_nil in Hentry.
  destruct Hentry as (pkg & Hpkg & Hinvalid & Horder).
  exists pkg, s. repeat split; try assumption.
  unfold resolved.
  destruct (includesIncrementable (Some s)) as [part|] eqn:Hincl.
  - left. exists part. split; [reflexivity|].
    now apply includesIncrementable_Some.
  - right. apply includesIncrementable_None in Hincl.
    unfold isInvalidSpecifier in Hinvalid. rewrite Hincl in Hinvalid.
    cbn [Directive_eqb SKIP_PACKAGE_DIRECTIVE isValidSemverDirective negb andb]
      in Hinvalid.
    apply String.eqb_neq in Hskip. rewrite Hskip in Hinvalid.
    cbn [negb andb] in Hinvalid. apply negb_false_iff in Hinvalid.
    destruct (isValidSemver_parse s Hinvalid) as [sv Hsv].
    exists sv. rewrite Hsv. repeat split; try assumption.
    unfold versionOrderErrors in Horder. rewrite Hinvalid, Hsv in Horder.
    cbn zeta in Horder.
    destruct (Z.eqb_spec (compare sv (version (validatedManifest pkg))) 0);
      [discriminate|].
    destruct (Z.ltb_spec (compare sv (version (validatedManifest pkg))) 0);
      [discriminate|].
    lia.
Qed.

(** ** The template *)

Lemma templatePackages_fold_keys l acc n :
  In n (Obj.keys
          (fold_left
             (fun obj pkg =>
                Obj.set obj (name (validatedManifest pkg)) SKIP_PACKAGE_DIRECTIVE)
             l acc))
  <-> In n (Obj.keys acc)
      \/ exists pkg, In pkg l /\ name (validatedManifest pkg) = n.
Proof.
  revert acc. induction l as [|x l IH]; intro acc; cbn [fold_left].
  - split; [auto | intros [?|(pkg & [] & _)]; assumption].
  - rewrite IH, Obj_set_keys. split.
    + intros [[->|Hacc]|(pkg & Hl & Hn)]; [right; exists x | auto | right; exists pkg];
        simpl; auto.
    + intros [Hacc|(pkg & [<-|Hl] & Hn)]; [auto | auto | right; eauto].
Qed.

Lemma templatePackages_fold_values l acc n d :
  (forall n' d', In (n', d') acc -> d' = SKIP_PACKAGE_DIRECTIVE) ->
  In (n, d)
     (fold_left
        (fun obj pkg =>
           Obj.set obj (name (validatedManifest pkg)) SKIP_PACKAGE_DIRECTIVE)
        l acc) ->
  d = SKIP_PACKAGE_DIRECTIVE.
Proof.
  revert acc. induction l as [|x l IH]; intros acc Hacc; cbn [fold_left].
  - apply Hacc.
  - apply IH. intros n' d' Hin. apply Obj_set_In in Hin.
    destruct Hin as [[_ ->]|Hin]; [reflexivity | eauto].
Qed.




(** ** The shape of the document *)

(** The two errors thrown before the loop are thrown exactly when the
    document did not parse, is not a mapping, or has no [packages]
    property; whether the value of [packages] is a mapping is not looked
    at. *)
Lemma thrown_before_the_loop project path contents parsed :
  (validateReleaseSpecification project path contents parsed = InvalidYamlError
   <-> parsed = None)
  /\ (validateReleaseSpecification project path contents parsed
      = NotAnObjectWithPackagesError
      <-> parsed = Some NotAMapping \/ parsed = Some (Mapping None)).
Proof.
  rewrite validateReleaseSpecification_run.
  destruct parsed as [[|[packagesValue|]]|].
  2: { destruct (Object_entries packagesValue) as [rawPackages|].
       - destruct (anyEntryThrows project rawPackages).
         + split; split; try discriminate. intros [Hf|Hf]; discriminate Hf.
         + destruct (collectErrors _ _ _ _ _); split; split; try discriminate;
             intros [Hf|Hf]; discriminate Hf.
       - split; split; try discriminate. intros [Hf|Hf]; discriminate Hf. }
  all: split; split; try discriminate; try reflexivity; auto.
  all: intros [Hf|Hf]; discriminate Hf.
Qed.

End Properties.

(* ------------------------------------------------------------------ *)
(** * The properties on the small monorepo *)

#[local] Existing Instance SimpleSemver.lib.





(** C3, at an input where it fails: the first entry names an unknown
    package with a version, the second has a value that is no directive.
    The loop throws at the first entry, so neither problem is reported. *)
Theorem aggregation_lost_to_type_error :
  validateReleaseSpecification Examples.project "release-spec.yml"
    (Examples.text Examples.unknownWithVersion)
    (Examples.parsed Examples.unknownWithVersion)
  = UncaughtTypeError
  /\ validateEntry Examples.project Examples.unknownWithVersion 0
       "nope" (Some "2.0.0") 0 []
     = ThrewTypeError.
Proof. split; reflexivity. Qed.

(** Where the loop does not throw, three problems give three errors, in
    the order of the entries. *)
Example three_problems_three_errors :
  validateReleaseSpecification Examples.project "release-spec.yml"
    (Examples.text Examples.threeProblems)
    (Examples.parsed Examples.threeProblems)
  = ReleaseSpecificationError
      [mkError (NotAPackage "nope") (Some 2);
       mkError (InvalidVersionSpecifier (Some "bogus") "c") (Some 3);
       mkError (MissingDependents "a" ["b"]) None].
Proof. reflexivity. Qed.



(** C5, at inputs where it fails: with [packages] present and [null], the
    call ends in an uncaught [TypeError]; with [packages] a number or a
    boolean, validation succeeds with no packages.  Neither is the error
    thrown for a malformed document. *)
Theorem packages_shape_is_not_checked :
  validateReleaseSpecification Examples.project "release-spec.yml"
    "packages:" (Some (Mapping (Some PackagesNull)))
  = UncaughtTypeError
  /\ validateReleaseSpecification Examples.project "release-spec.yml"
       "packages: 5" (Some (Mapping (Some PackagesScalar)))
     = Validated {| packages := []; path := "release-spec.yml" |}.
Proof. split; reflexivity. Qed.

(** [b] is at 1.2.3: listing it at 1.2.3 records the "already at" error. *)
Lemma explicit_version_must_increase_witness :
  Obj.get (workspacePackages Examples.project) "b" = Some Examples.b
  /\ isValidSemver "1.2.3" = true
  /\ exists new,
       validateEntry Examples.project Examples.sameVersion 0
         "b" (Some "1.2.3") 0 []
       = Returned (tt, new)
       /\ In (mkError (AlreadyAtVersion "1.2.3" "b") (Some 2)) new.
Proof.
  split; [reflexivity|]. split; [reflexivity|].
  destruct (explicit_version_must_increase
              Examples.project Examples.sameVersion 0 "b" "1.2.3" 0
              Examples.b [] eq_refl eq_refl)
    as (sv & new & Hsv & Hrun & Hequal & _).
  exists new. split; [exact Hrun|].
  apply Hequal. injection Hsv as <-. reflexivity.
Defined.

(** A release of [a] and [b] validates, and what it returns satisfies the
    invariants. *)
Lemma validated_specification_invariants_witness :
  validateReleaseSpecification Examples.project "release-spec.yml"
    (Examples.text Examples.goodRelease)
    (Examples.parsed Examples.goodRelease)
  = Validated {| packages := Examples.goodReleasePackages;
                 path := "release-spec.yml" |}
  /\ forall k vs,
       In (k, vs) Examples.goodReleasePackages ->
       exists pkg,
         Obj.get (workspacePackages Examples.project) k = Some pkg.
Proof.
  split; [reflexivity|].
  destruct (validated_specification_invariants
              Examples.project "release-spec.yml"
              (Examples.text Examples.goodRelease)
              (Examples.parsed Examples.goodRelease)
              {| packages := Examples.goodReleasePackages;
                 path := "release-spec.yml" |}
              eq_refl)
    as (rawPackages & _ & _ & _ & _ & Hvalues).
  intros k vs Hin. destruct (Hvalues k vs Hin) as (pkg & s & Hpkg & _).
  exists pkg. exact Hpkg.
Defined.




(** The document with the unknown package [nope] at a version ends in the
    uncaught [TypeError]; the release of [a] and [b] does not. *)
Lemma unknown_package_with_version_throws_witness :
  validateReleaseSpecification Examples.project "release-spec.yml"
    (Examples.text Examples.unknownWithVersion)
    (Examples.parsed Examples.unknownWithVersion)
  = UncaughtTypeError
  /\ validateReleaseSpecification Examples.project "release-spec.yml"
       (Examples.text Examples.goodRelease)
       (Examples.parsed Examples.goodRelease)
     <> UncaughtTypeError.
Proof.
  split.
  - apply (proj1 (unknown_package_with_version_throws
                    Examples.project "release-spec.yml"
                    (Examples.text Examples.unknownWithVersion)
                    Examples.unknownWithVersion)).
    exists "nope", (Some "2.0.0").
    split; [left; reflexivity|]. split; reflexivity.
  - apply (proj2 (unknown_package_with_version_throws
                    Examples.project "release-spec.yml"
                    (Examples.text Examples.goodRelease)
                    Examples.goodRelease)).
    intros k v [[= <- <-]|[[= <- <-]|[[= <- <-]|[]]]]; discriminate.
Defined.

(** In the generated template the header has twelve lines and is followed
    by a blank line.  The blank line is the first line the pattern does not
    match, so the entry of [a], which is on line 15, is attributed line 14. *)
Example generated_template_line_numbers :
  nth_error (Lines.split Examples.templateText) 12 = Some EmptyString
  /\ nth_error (Lines.split Examples.templateText) 13 = Some "packages:"
  /\ nth_error (Lines.split Examples.templateText) 14 = Some "  a: null"
  /\ Lines.indexOfFirstUsableLine Examples.templateText = 12
  /\ entryLineNumber
       (Lines.indexOfFirstUsableLine Examples.templateText) 0 = 14.
Proof. repeat split; reflexivity. Qed.

(* ------------------------------------------------------------------ *)
(** * Further properties of the validator *)

Section MoreProperties.

Context `{Semver : SemverLib}.

(** ** Line numbers *)

Lemma findIndexFrom_range p lines i :
  Lines.findIndexFrom p lines i = -1
  \/ (i <= Lines.findIndexFrom p lines i
      < i + Z.of_nat (List.length lines)).
Proof.
  revert i. induction lines as [|l lines IH]; intro i; cbn [Lines.findIndexFrom].
  - now left.
  - destruct (p l).
    + right. cbn [List.length]. lia.
    + destruct (IH (i + 1)) as [Hnone|Hin]; [now left|].
      right. cbn [List.length]. lia.
Qed.

Lemma findIndexFrom_none p lines i :
  0 <= i ->
  (Lines.findIndexFrom p lines i = -1
   <-> forall l, In l lines -> p l = false).
Proof.
  revert i. induction lines as [|l lines IH]; intros i Hi;
    cbn [Lines.findIndexFrom].
  - split; [intros _ l [] | reflexivity].
  - destruct (p l) eqn:Hl.
    + split; [lia|]. intro Hall. rewrite (Hall l (or_introl eq_refl)) in Hl.
      discriminate.
    + rewrite IH by lia. split.
      * intros Hall l' [<-|Hin]; auto.
      * intros Hall l' Hin. apply Hall. now right.
Qed.

Lemma nth_error_length A (l : list A) j x :
  nth_error l j = Some x -> (j < List.length l)%nat.
Proof.
  intro Hnth. apply nth_error_Some. congruence.
Qed.

(** X2: the line numbers of a report stay within the file: the index of the
    first usable line is [-1] exactly when every line begins with [#] or
    contains a space, and otherwise the index of a line; every line number
    a reported error carries is at least 1 and at most the number of lines
    plus the number of entries. *)
Theorem line_numbers_in_range project path contents parsed errors rawPackages :
  validateReleaseSpecification project path contents parsed
  = ReleaseSpecificationError errors ->
  rawPackagesOf parsed = Some rawPackages ->
  (-1 <= Lines.indexOfFirstUsableLine contents
   < Z.of_nat (List.length (Lines.split contents)))
  /\ (Lines.indexOfFirstUsableLine contents = -1
      <-> forall l, In l (Lines.split contents) -> Lines.regexTest l = true)
  /\ forall e n,
       In e errors -> lineNumber e = Some n ->
       1 <= n
       <= Z.of_nat (List.length (Lines.split contents))
          + Z.of_nat (List.length rawPackages).
Proof.
  intros Hrun Hraw.
  assert (Hrange : -1 <= Lines.indexOfFirstUsableLine contents
                   < Z.of_nat (List.length (Lines.split contents))).
  { unfold Lines.indexOfFirstUsableLine, Lines.findIndex.
    destruct (findIndexFrom_range (fun line => negb (Lines.regexTest line))
                (Lines.split contents) 0) as [->|Hin]; [|lia].
    destruct (Lines.split contents) eqn:Hsplit; cbn [List.length]; [|lia].
    destruct contents as [|ch rest]; cbn [Lines.split] in Hsplit;
      [discriminate|].
    destruct (Ascii.eqb ch Lines.newline); [discriminate|].
    destruct (Lines.split rest); discriminate. }
  split; [exact Hrange|]. split.
  - unfold Lines.indexOfFirstUsableLine, Lines.findIndex.
    rewrite findIndexFrom_none by lia. split.
    + intros Hall l Hl. apply negb_false_iff. now apply Hall.
    + intros Hall l Hl. apply negb_false_iff. now apply Hall.
  - intros e n Hin Hn. rewrite validateReleaseSpecification_run in Hrun.
    destruct parsed as [[|[packagesValue|]]|]; try discriminate.
    cbn [rawPackagesOf] in Hraw. rewrite Hraw in Hrun.
    destruct (anyEntryThrows project rawPackages); [discriminate|].
    destruct (collectErrors project rawPackages
                (Lines.indexOfFirstUsableLine contents) rawPackages 0)
      as [|e0 rest] eqn:Hcollect; [discriminate|].
    injection Hrun as <-. rewrite <- Hcollect in Hin.
    apply collectErrors_In in Hin. destruct Hin as (j & k & v & Hnth & Hin).
    apply entryErrors_subject in Hin. destruct Hin as [_ Hline].
    rewrite (Hline n Hn). unfold entryLineNumber.
    apply nth_error_length in Hnth. lia.
Qed.

(** ** The order of the report *)

Lemma entryErrors_line_kind project rawPackages first k v index e :
  In e (entryErrors project rawPackages first k v index) ->
  (lineNumber e = None <->
   kind (message e) = KMissingDependents
   \/ kind (message e) = KMissingDependencies).
Proof.
  unfold entryErrors, invalidSpecifierErrors, versionOrderErrors,
    missingDependentsErrors, missingDependenciesErrors.
  intro Hin.
  repeat match type of Hin with
         | context [match ?x with _ => _ end] => destruct x
         end;
    repeat (rewrite in_app_iff in Hin; simpl in Hin);
    simpl in Hin;
    repeat match type of Hin with
           | _ \/ _ => destruct Hin as [Hin|Hin]
           end;
    try contradiction; subst e; simpl; split; auto;
    try discriminate; intros [Hf|Hf]; discriminate Hf.
Qed.

Lemma lineNumbers_entryErrors project rawPackages first k v index n :
  In n (lineNumbers (entryErrors project rawPackages first k v index)) ->
  n = entryLineNumber first index.
Proof.
  unfold lineNumbers. rewrite in_flat_map. intros (e & Hin & Hn).
  apply entryErrors_subject in Hin. destruct Hin as [_ Hline].
  destruct (lineNumber e) as [m|]; [|contradiction].
  destruct Hn as [<-|[]]. now apply Hline.
Qed.

Lemma StronglySorted_constant (c : Z) l :
  (forall n, In n l -> n = c) -> StronglySorted Z.le l.
Proof.
  induction l as [|x l IH]; intro Hall; constructor.
  - apply IH. intros n Hn. apply Hall. now right.
  - apply Forall_forall. intros y Hy.
    rewrite (Hall x (or_introl eq_refl)), (Hall y (or_intror Hy)). lia.
Qed.

Lemma StronglySorted_append (l1 l2 : list Z) :
  StronglySorted Z.le l1 -> StronglySorted Z.le l2 ->
  (forall x y, In x l1 -> In y l2 -> x <= y) ->
  StronglySorted Z.le (l1 ++ l2).
Proof.
  induction l1 as [|x l1 IH]; intros H1 H2 Hcross; cbn [app]; [assumption|].
  inversion H1 as [|? ? Hs Hall]; subst. constructor.
  - apply IH; [assumption | assumption |].
    intros a b Ha Hb. apply Hcross; [now right | assumption].
  - apply Forall_forall. intros y Hy. apply in_app_iff in Hy.
    destruct Hy as [Hy|Hy].
    + rewrite Forall_forall in Hall. now apply Hall.
    + apply Hcross; [now left | assumption].
Qed.

Lemma collectErrors_sorted project rawPackages first entries index :
  StronglySorted Z.le
    (lineNumbers (collectErrors project rawPackages first entries index))
  /\ forall n,
       In n (lineNumbers
               (collectErrors project rawPackages first entries index)) ->
       entryLineNumber first index <= n.
Proof.
  revert index. induction entries as [|[k v] rest IH]; intro index;
    cbn [collectErrors].
  - split; [constructor | intros n []].
  - unfold lineNumbers in *. rewrite flat_map_app.
    destruct (IH (S index)) as [Hsorted Hlower].
    assert (Hnext : entryLineNumber first index
                    <= entryLineNumber first (S index)).
    { unfold entryLineNumber. lia. }
    split.
    + apply StronglySorted_append.
      * apply StronglySorted_constant with (c := entryLineNumber first index).
        intros n Hn. now apply lineNumbers_entryErrors in Hn.
      * exact Hsorted.
      * intros x y Hx Hy. apply lineNumbers_entryErrors in Hx.
        apply Hlower in Hy. lia.
    + intros n Hn. apply in_app_iff in Hn. destruct Hn as [Hn|Hn].
      * apply lineNumbers_entryErrors in Hn. lia.
      * apply Hlower in Hn. lia.
Qed.

(** X3: the report follows the document: a reported list of errors is never
    empty, the line numbers it carries never decrease along the list, and
    the errors without a line number are exactly the missing-dependents and
    missing-dependencies ones. *)
Theorem report_follows_document project path contents parsed errors :
  validateReleaseSpecification project path contents parsed
  = ReleaseSpecificationError errors ->
  errors <> []
  /\ StronglySorted Z.le (lineNumbers errors)
  /\ forall e,
       In e errors ->
       (lineNumber e = None <->
        kind (message e) = KMissingDependents
        \/ kind (message e) = KMissingDependencies).
Proof.
  rewrite validateReleaseSpecification_run.
  destruct parsed as [[|[packagesValue|]]|]; try discriminate.
  destruct (Object_entries packagesValue) as [rawPackages|]; [|discriminate].
  destruct (anyEntryThrows project rawPackages); [discriminate|].
  destruct (collectErrors project rawPackages
              (Lines.indexOfFirstUsableLine contents) rawPackages 0)
    as [|e0 rest] eqn:Hcollect; [discriminate|].
  intros [= <-]. split; [discriminate|]. rewrite <- Hcollect. split.
  - apply collectErrors_sorted.
  - intros e Hin. apply collectErrors_In in Hin.
    destruct Hin as (j & k & v & _ & Hin).
    now apply entryErrors_line_kind in Hin.
Qed.

(** ** What the text of the file contributes *)

Lemma shiftLine_mkError d m l :
  shiftLine d (mkError m (Some l)) = mkError m (Some (d + l))
  /\ shiftLine d (mkError m None) = mkError m None.
Proof. split; reflexivity. Qed.

Lemma entryErrors_shift project rawPackages first1 first2 k v index :
  entryErrors project rawPackages first2 k v index
  = map (shiftLine (first2 - first1))
        (entryErrors project rawPackages first1 k v index).
Proof.
  assert (Hline : entryLineNumber first2 index
                  = (first2 - first1) + entryLineNumber first1 index).
  { unfold entryLineNumber. lia. }
  unfold entryErrors. rewrite Hline.
  generalize (entryLineNumber first1 index) as l.
  generalize (first2 - first1) as d. intros d l.
  assert (Hinvalid : invalidSpecifierErrors k v (d + l)
                     = map (shiftLine d) (invalidSpecifierErrors k v l)).
  { unfold invalidSpecifierErrors. now destruct (isInvalidSpecifier v). }
  assert (Hdependents : missingDependentsErrors project rawPackages k
                        = map (shiftLine d)
                              (missingDependentsErrors project rawPackages k)).
  { unfold missingDependentsErrors. now destruct (0 <? _). }
  destruct (Obj.get (workspacePackages project) k) as [pkg|].
  - assert (Horder : versionOrderErrors pkg k v (d + l)
                     = map (shiftLine d) (versionOrderErrors pkg k v l)).
    { unfold versionOrderErrors. destruct v as [s|]; [|reflexivity].
      destruct (isValidSemver s); [|reflexivity].
      destruct (parse s) as [sv|]; [|reflexivity]. cbn zeta.
      destruct (_ =? 0); [reflexivity|]. now destruct (_ <? 0). }
    assert (Hdependencies :
              missingDependenciesErrors project rawPackages pkg k v
              = map (shiftLine d)
                    (missingDependenciesErrors project rawPackages pkg k v)).
    { unfold missingDependenciesErrors. destruct (isRelease v); [|reflexivity].
      now destruct (0 <? _). }
    rewrite !map_app, <- Hinvalid, <- Horder, <- Hdependencies.
    destruct (isMajorBump pkg v); [now rewrite <- Hdependents | reflexivity].
  - cbn [app map]. rewrite map_app, <- Hinvalid.
    destruct (Directive_eqb v (Some "major"));
      [now rewrite <- Hdependents | reflexivity].
Qed.

Lemma collectErrors_shift project rawPackages first1 first2 entries index :
  collectErrors project rawPackages first2 entries index
  = map (shiftLine (first2 - first1))
        (collectErrors project rawPackages first1 entries index).
Proof.
  revert index. induction entries as [|[k v] rest IH]; intro index;
    cbn [collectErrors]; [reflexivity|].
  now rewrite map_app, <- IH, <- entryErrors_shift.
Qed.

(** X4: the text of the file and its path reach the outcome only through line
    numbers and the returned [path]: validating the same parsed document
    against another text gives the same kind of outcome, the same resolved
    packages, and the same errors in the same order, their line numbers all
    moved by the difference of the two first usable lines. *)
Theorem text_only_moves_line_numbers
  project path1 contents1 path2 contents2 parsed :
  let d := Lines.indexOfFirstUsableLine contents2
           - Lines.indexOfFirstUsableLine contents1 in
  validateReleaseSpecification project path2 contents2 parsed
  = match validateReleaseSpecification project path1 contents1 parsed with
    | ReleaseSpecificationError errors =>
        ReleaseSpecificationError (map (shiftLine d) errors)
    | Validated spec =>
        Validated {| packages := packages spec; path := path2 |}
    | outcome => outcome
    end.
Proof.
  intro d. rewrite !validateReleaseSpecification_run.
  destruct parsed as [[|[packagesValue|]]|]; try reflexivity.
  destruct (Object_entries packagesValue) as [rawPackages|]; [|reflexivity].
  destruct (anyEntryThrows project rawPackages); [reflexivity|].
  rewrite (collectErrors_shift project rawPackages
             (Lines.indexOfFirstUsableLine contents1)
             (Lines.indexOfFirstUsableLine contents2)).
  fold d.
  destruct (collectErrors project rawPackages
              (Lines.indexOfFirstUsableLine contents1) rawPackages 0);
    reflexivity.
Qed.

(** ** Documents that release nothing *)

Lemma entryErrors_skipped project rawPackages first k v index :
  In k (Obj.keys (workspacePackages project)) ->
  v = SKIP_PACKAGE_DIRECTIVE
  \/ v = Some INTENTIONALLY_SKIP_PACKAGE_DIRECTIVE ->
  entryThrows project k v = false
  /\ entryErrors project rawPackages first k v index = [].
Proof.
  intros Hknown Hskip. apply Obj_get_keys in Hknown.
  destruct Hknown as [pkg Hpkg].
  assert (Hvalid : isValidSemverDirective v = false).
  { destruct Hskip as [->| ->]; [reflexivity|]. cbn [isValidSemverDirective].
    apply isValidSemver_word. simpl. auto. }
  unfold entryThrows, entryErrors. rewrite Hpkg. split; [reflexivity|].
  unfold invalidSpecifierErrors, isInvalidSpecifier, versionOrderErrors,
    isMajorBump, missingDependenciesErrors, isRelease.
  rewrite Hvalid.
  destruct Hskip as [->| ->]; cbn [isValidSemverDirective] in Hvalid.
  - reflexivity.
  - rewrite Hvalid. reflexivity.
Qed.

Lemma all_skipped_validates project path contents rawPackages :
  (forall k v,
      In (k, v) rawPackages ->
      In k (Obj.keys (workspacePackages project))
      /\ (v = SKIP_PACKAGE_DIRECTIVE
          \/ v = Some INTENTIONALLY_SKIP_PACKAGE_DIRECTIVE)) ->
  validateReleaseSpecification project path contents
    (Some (Mapping (Some (PackagesMapping rawPackages))))
  = Validated {| packages := []; path := path |}.
Proof.
  intro Hall. rewrite validateReleaseSpecification_run. cbn [Object_entries].
  assert (Hsafe : anyEntryThrows project rawPackages = false).
  { destruct (anyEntryThrows project rawPackages) eqn:Hthrows; [|reflexivity].
    apply anyEntryThrows_iff in Hthrows.
    destruct Hthrows as (k & v & Hin & Hget & _).
    destruct (Hall k v Hin) as [Hknown _]. apply Obj_get_keys in Hknown.
    destruct Hknown as [pkg Hpkg]. congruence. }
  rewrite Hsafe.
  assert (Hnone : forall entries index,
             (forall k v, In (k, v) entries -> In (k, v) rawPackages) ->
             collectErrors project rawPackages
               (Lines.indexOfFirstUsableLine contents) entries index = []).
  { induction entries as [|[k v] rest IH]; intros index Hsub;
      cbn [collectErrors]; [reflexivity|].
    destruct (Hall k v (Hsub k v (or_introl eq_refl))) as [Hknown Hskip].
    destruct (entryErrors_skipped project rawPackages
                (Lines.indexOfFirstUsableLine contents) k v index Hknown Hskip)
      as [_ ->].
    apply IH. intros k' v' Hin. apply Hsub. now right. }
  rewrite Hnone by auto.
  assert (Hempty : resolvePackages rawPackages = []).
  { destruct (resolvePackages rawPackages) as [|[k vs] rest] eqn:Hres;
      [reflexivity|].
    assert (Hkey : In k (Obj.keys (resolvePackages rawPackages))).
    { rewrite Hres. now left. }
    apply resolvePackages_keys in Hkey. destruct Hkey as (s & Hget & Hne).
    apply Obj_get_In in Hget.
    destruct (Hall k (Some s) Hget) as [_ [Hf|Hf]];
      unfold SKIP_PACKAGE_DIRECTIVE in *; congruence. }
  now rewrite Hempty.
Qed.

(** X1: round trip: when every key of [workspacePackages] is the name in that
    package's manifest, the [packages] object that template generation
    builds, validated as it is, is accepted and releases nothing. *)
Theorem untouched_template_releases_nothing project path contents :
  (forall k pkg,
      In (k, pkg) (workspacePackages project) ->
      name (validatedManifest pkg) = k) ->
  validateReleaseSpecification project path contents
    (Some (Mapping (Some (PackagesMapping
                            (templatePackages
                               (changedWorkspacePackages project))))))
  = Validated {| packages := []; path := path |}.
Proof.
  intro Hnames. apply all_skipped_validates. intros n d Hin.
  unfold templatePackages in Hin.
  assert (Hd : d = SKIP_PACKAGE_DIRECTIVE).
  { apply templatePackages_fold_values
      with (l := changedWorkspacePackages project) (acc := []) (n := n);
      [intros n' d' [] | exact Hin]. }
  split; [|now left].
  assert (Hkey : In n (Obj.keys
                         (fold_left
                            (fun obj pkg =>
                               Obj.set obj (name (validatedManifest pkg))
                                 SKIP_PACKAGE_DIRECTIVE)
                            (changedWorkspacePackages project) []))).
  { unfold Obj.keys. apply in_map_iff. now exists (n, d). }
  apply templatePackages_fold_keys in Hkey.
  destruct Hkey as [[]|(pkg & Hpkg & Hn)].
  unfold changedWorkspacePackages in Hpkg. apply filter_In in Hpkg.
  destruct Hpkg as [Hvalue _].
  unfold Obj.values in Hvalue. apply in_map_iff in Hvalue.
  destruct Hvalue as ([k pkg'] & Heq & Hws). cbn [snd] in Heq. subst pkg'.
  rewrite (Hnames k pkg Hws) in Hn. subst n.
  unfold Obj.keys. apply in_map_iff. now exists (k, pkg).
Qed.

(** ** Listing every changed package *)

Lemma entryErrors_missing_kind project rawPackages first k v index e :
  In e (entryErrors project rawPackages first k v index) ->
  kind (message e) = KMissingDependents
  \/ kind (message e) = KMissingDependencies ->
  In e (missingDependentsErrors project rawPackages k)
  \/ exists pkg, In e (missingDependenciesErrors project rawPackages pkg k v).
Proof.
  unfold entryErrors. intros Hin Hkind.
  assert (Hinvalid : forall l, ~ In e (invalidSpecifierErrors k v l)).
  { intros l Hl. apply invalidSpecifierErrors_In in Hl. destruct Hl as [-> _].
    destruct Hkind as [Hf|Hf]; discriminate Hf. }
  destruct (Obj.get (workspacePackages project) k) as [pkg|].
  - rewrite !in_app_iff in Hin. destruct Hin as [Hl|[Hl|[Hl|Hl]]].
    + now destruct (Hinvalid _ Hl).
    + apply versionOrderErrors_In in Hl.
      destruct Hl as (s & sv & _ & _ & _ & [[-> _]|[-> _]]);
        destruct Hkind as [Hf|Hf]; discriminate Hf.
    + destruct (isMajorBump pkg v); [now left | contradiction].
    + right. now exists pkg.
  - cbn [app] in Hin. destruct Hin as [<-|Hin].
    + destruct Hkind as [Hf|Hf]; discriminate Hf.
    + rewrite in_app_iff in Hin. destruct Hin as [Hl|Hl].
      * now destruct (Hinvalid _ Hl).
      * destruct (Directive_eqb v (Some "major")); [now left | contradiction].
Qed.

(** X5: when every workspace package with changes since its latest release is
    listed with a non-empty string (a bump kind, a version,
    ["intentionally-skip"], or anything else that is truthy), no
    missing-dependents and no missing-dependencies error is reported,
    whatever else is wrong with the document. *)
Theorem listing_every_changed_package_satisfies_dependency_rules
  project path contents rawPackages errors :
  (forall n pkg,
      Obj.get (workspacePackages project) n = Some pkg ->
      hasChangesSinceLatestRelease pkg = true ->
      truthy (Obj.get rawPackages n) = true) ->
  validateReleaseSpecification project path contents
    (Some (Mapping (Some (PackagesMapping rawPackages))))
  = ReleaseSpecificationError errors ->
  forall e,
    In e errors ->
    kind (message e) <> KMissingDependents
    /\ kind (message e) <> KMissingDependencies.
Proof.
  intros Hlisted Hrun e Hin.
  assert (Hnone : forall k v,
             (forall e', ~ In e' (missingDependentsErrors project rawPackages k))
             /\ forall pkg e',
                  ~ In e' (missingDependenciesErrors project rawPackages pkg k v)).
  { intros k v. split.
    - intros e' He'. apply missingDependentsErrors_In in He'.
      destruct He' as [_ Hne].
      destruct (missingDependentNames project rawPackages k) as [|d rest] eqn:Hm;
        [now apply Hne|].
      assert (Hd : In d (missingDependentNames project rawPackages k)).
      { rewrite Hm. now left. }
      apply missingDependentNames_In in Hd.
      destruct Hd as [(dependent & Hget & _ & Hch) Hfalsy].
      rewrite (Hlisted d dependent Hget Hch) in Hfalsy. discriminate.
    - intros pkg e' He'. apply missingDependenciesErrors_In in He'.
      destruct He' as (_ & Hne & _).
      destruct (missingDependencies project rawPackages pkg) as [|d rest] eqn:Hm;
        [now apply Hne|].
      assert (Hd : In d (missingDependencies project rawPackages pkg)).
      { rewrite Hm. now left. }
      apply missingDependencies_In in Hd.
      destruct Hd as (_ & (dependency & Hget & Hch) & Hfalsy).
      rewrite (Hlisted d dependency Hget Hch) in Hfalsy. discriminate. }
  rewrite validateReleaseSpecification_run in Hrun. cbn [Object_entries] in Hrun.
  destruct (anyEntryThrows project rawPackages); [discriminate|].
  destruct (collectErrors project rawPackages
              (Lines.indexOfFirstUsableLine contents) rawPackages 0)
    as [|e0 rest] eqn:Hcollect; [discriminate|].
  injection Hrun as <-. rewrite <- Hcollect in Hin.
  apply collectErrors_In in Hin. destruct Hin as (j & k & v & _ & Hin).
  assert (Hnot : ~ (kind (message e) = KMissingDependents
                    \/ kind (message e) = KMissingDependencies)).
  { intro Hkind.
    destruct (entryErrors_missing_kind _ _ _ _ _ _ _ Hin Hkind)
      as [Hl|[pkg Hl]].
    - now apply (proj1 (Hnone k v)) in Hl.
    - now apply (proj2 (Hnone k v)) in Hl. }
  tauto.
Qed.

(** ** The order of the resolved packages *)

Lemma Obj_get_unique V (obj : Obj.t V) k v :
  NoDup (Obj.keys obj) -> In (k, v) obj -> Obj.get obj k = Some v.
Proof.
  unfold Obj.keys. induction obj as [|[k' v'] rest IH]; cbn [map fst Obj.get In];
    [tauto|].
  intros Hnd [Heq | Hin].
  - injection Heq as -> ->. now rewrite String.eqb_refl.
  - inversion Hnd as [|? ? Hnotin Hnd']; subst.
    destruct (String.eqb k' k) eqn:E.
    + apply String.eqb_eq in E. subst k'. exfalso. apply Hnotin.
      apply in_map_iff. now exists (k, v).
    + now apply IH.
Qed.

Lemma resolvePackages_fold_entries rawPackages entries acc :
  (forall k v, In (k, v) entries -> Obj.get rawPackages k = Some v) ->
  NoDup (Obj.keys acc ++ Obj.keys entries) ->
  fold_left
    (fun obj packageName =>
       match Obj.get rawPackages packageName with
       | Some None => obj
       | Some (Some s) =>
           if String.eqb s INTENTIONALLY_SKIP_PACKAGE_DIRECTIVE then obj
           else match includesIncrementable (Some s) with
                | Some part => Obj.set obj packageName (Bump part)
                | None => Obj.set obj packageName (Exact (parse s))
                end
       | None => Obj.set obj packageName (Exact None)
       end)
    (Obj.keys entries) acc
  = acc ++ flat_map resolveEntry entries.
Proof.
  revert acc. induction entries as [|[k v] rest IH]; intros acc Hget Hnd.
  - cbn. now rewrite app_nil_r.
  - cbn [Obj.keys map fst fold_left flat_map].
    rewrite (Hget k v (or_introl eq_refl)).
    assert (Hrest : forall k' v', In (k', v') rest ->
                                  Obj.get rawPackages k' = Some v').
    { intros k' v' Hin. apply Hget. now right. }
    assert (Hskip : NoDup (Obj.keys acc ++ Obj.keys rest)).
    { cbn [Obj.keys map fst] in Hnd. now apply NoDup_remove_1 in Hnd. }
    assert (Hset : forall w,
               fold_left
                 (fun obj packageName =>
                    match Obj.get rawPackages packageName with
                    | Some None => obj
                    | Some (Some s) =>
                        if String.eqb s INTENTIONALLY_SKIP_PACKAGE_DIRECTIVE
                        then obj
                        else match includesIncrementable (Some s) with
                             | Some part => Obj.set obj packageName (Bump part)
                             | None => Obj.set obj packageName (Exact (parse s))
                             end
                    | None => Obj.set obj packageName (Exact None)
                    end)
                 (Obj.keys rest) (Obj.set acc k w)
               = acc ++ (k, w) :: flat_map resolveEntry rest).
    { intro w. rewrite Obj_set_fresh.
      - rewrite IH; [now rewrite <- app_assoc | assumption |].
        unfold Obj.keys in *. rewrite map_app, <- app_assoc. exact Hnd.
      - cbn [Obj.keys map fst] in Hnd. apply NoDup_remove_2 in Hnd.
        intro Hin. apply Hnd. apply in_or_app. now left. }
    unfold resolveEntry at 1. cbn [fst snd].
    destruct v as [s|]; [|now apply IH].
    destruct (String.eqb s INTENTIONALLY_SKIP_PACKAGE_DIRECTIVE);
      [now apply IH|].
    cbn [app]. unfold resolved.
    destruct (includesIncrementable (Some s)); apply Hset.
Qed.

(** X6: the resolved packages keep the order of the document: with the keys of
    the raw document distinct, as the keys of an object are,
    [resolvePackages] gives the entries that are neither [null] nor
    ["intentionally-skip"], in document order, each with its bump kind or
    parsed version. *)
Theorem resolvePackages_in_document_order rawPackages :
  NoDup (Obj.keys rawPackages) ->
  resolvePackages rawPackages = flat_map resolveEntry rawPackages.
Proof.
  intro Hnd. unfold resolvePackages.
  rewrite resolvePackages_fold_entries; [reflexivity | | exact Hnd].
  intros k v Hin. now apply Obj_get_unique.
Qed.

(** ** Line numbers in a generated template *)

Lemma split_nonempty contents : Lines.split contents <> [].
Proof.
  destruct contents as [|c rest]; cbn [Lines.split]; [discriminate|].
  destruct (Ascii.eqb c Lines.newline); [discriminate|].
  destruct (Lines.split rest); discriminate.
Qed.

Lemma split_append_newline a b :
  Lines.split (String.append a (String Lines.newline b))
  = Lines.split a ++ Lines.split b.
Proof.
  induction a as [|c a IH]; cbn [String.append Lines.split].
  - now rewrite Ascii.eqb_refl.
  - destruct (Ascii.eqb c Lines.newline); rewrite IH; [reflexivity|].
    destruct (Lines.split a) as [|l ls] eqn:Hsplit; [|reflexivity].
    now destruct (split_nonempty a).
Qed.

Lemma split_without_newline s :
  containsNewline s = false -> Lines.split s = [s].
Proof.
  induction s as [|c s IH]; cbn [containsNewline Lines.split]; [reflexivity|].
  intro Hno. apply orb_false_iff in Hno. destruct Hno as [Hc Hs].
  now rewrite Hc, (IH Hs).
Qed.

Lemma split_joinLines lines :
  lines <> [] ->
  (forall l, In l lines -> containsNewline l = false) ->
  Lines.split (joinLines lines) = lines.
Proof.
  induction lines as [|l rest IH]; [congruence|]. intros _ Hno.
  destruct rest as [|l2 rest].
  - cbn [joinLines]. apply split_without_newline. apply Hno. now left.
  - change (joinLines (l :: l2 :: rest))
      with (String.append l (String Lines.newline (joinLines (l2 :: rest)))).
    rewrite split_append_newline, IH.
    + rewrite split_without_newline; [reflexivity | apply Hno; now left].
    + discriminate.
    + intros l' Hl'. apply Hno. now right.
Qed.

Lemma containsNewline_append a b :
  containsNewline (String.append a b) = containsNewline a || containsNewline b.
Proof.
  induction a as [|c a IH]; cbn [String.append containsNewline]; [reflexivity|].
  now rewrite IH, orb_assoc.
Qed.

Lemma instructionLines_shape rootName isEditorAvailable :
  List.length (instructionLines rootName isEditorAvailable) = 12%nat
  /\ (forall l,
         In l (instructionLines rootName isEditorAvailable) ->
         Lines.regexTest l = true)
  /\ (containsNewline rootName = false ->
      forall l,
        In l (instructionLines rootName isEditorAvailable) ->
        containsNewline l = false).
Proof.
  unfold instructionLines, afterEditingInstructions.
  split; [now destruct isEditorAvailable|]. split.
  - intros l Hin.
    destruct isEditorAvailable; cbn [app In] in Hin;
      repeat (destruct Hin as [<-|Hin]; [reflexivity|]); contradiction.
  - intros Hroot l Hin.
    assert (Hfirst : containsNewline
                       (String.append "# The following is a list of packages in "
                          (String.append rootName ".")) = false).
    { rewrite !containsNewline_append, Hroot. reflexivity. }
    destruct isEditorAvailable; cbn [app In] in Hin;
      (destruct Hin as [<-|Hin]; [exact Hfirst|]);
      repeat (destruct Hin as [<-|Hin]; [reflexivity|]); contradiction.
Qed.

(** X7: in a generated template the blank line after the header is the first
    usable line: for a root package name without a line break, the text
    splits into the twelve header lines, an empty line and the lines of the
    YAML document; the first usable line has index 12; and the line number
    attributed to the entry at [index], read as a 0-based index into the
    lines, is where line [index + 1] of the YAML document sits, so that the
    entry on that line is attributed one less than its 1-based line. *)
Theorem generated_template_line_attribution
  stringifyPackages project isEditorAvailable text :
  containsNewline (name (validatedManifest (rootPackage project))) = false ->
  generateReleaseSpecificationTemplateForMonorepo stringifyPackages project
    isEditorAvailable = Template text ->
  let header :=
    instructionLines (name (validatedManifest (rootPackage project)))
      isEditorAvailable in
  let yaml :=
    Lines.split
      (stringifyPackages (templatePackages (changedWorkspacePackages project))) in
  Lines.split text = header ++ EmptyString :: yaml
  /\ Lines.indexOfFirstUsableLine text = 12
  /\ forall index,
       entryLineNumber (Lines.indexOfFirstUsableLine text) index
       = 14 + Z.of_nat index
       /\ nth_error (Lines.split text)
            (Z.to_nat
               (entryLineNumber (Lines.indexOfFirstUsableLine text) index))
          = nth_error yaml (S index).
Proof.
  intros Hroot Hgen header yaml.
  destruct (instructionLines_shape
              (name (validatedManifest (rootPackage project))) isEditorAvailable)
    as (Hlength & Hhash & Hlines).
  fold header in Hlength, Hhash, Hlines.
  assert (Hsplit : Lines.split text = header ++ EmptyString :: yaml).
  { assert (Htext :
              text
              = String.append
                  (instructions
                     (name (validatedManifest (rootPackage project)))
                     isEditorAvailable)
                  (String Lines.newline
                     (String Lines.newline
                        (stringifyPackages
                           (templatePackages
                              (changedWorkspacePackages project)))))).
    { unfold generateReleaseSpecificationTemplateForMonorepo in Hgen.
      destruct (Nat.eqb _ 0); [discriminate|].
      injection Hgen as Heq. symmetry. exact Heq. }
    rewrite Htext.
    rewrite split_append_newline. unfold instructions. fold header.
    rewrite split_joinLines.
    - cbn [Lines.split]. now rewrite Ascii.eqb_refl.
    - intro Hnil. rewrite Hnil in Hlength. discriminate.
    - now apply Hlines. }
  assert (Hfirst : Lines.indexOfFirstUsableLine text = 12).
  { unfold Lines.indexOfFirstUsableLine, Lines.findIndex. rewrite Hsplit.
    rewrite findIndexFrom_first.
    - rewrite Hlength. reflexivity.
    - intros l Hl. now rewrite (Hhash l Hl).
    - reflexivity. }
  split; [exact Hsplit|]. split; [exact Hfirst|].
  intro index. rewrite Hfirst. unfold entryLineNumber.
  split; [lia|]. rewrite Hsplit.
  replace (Z.to_nat (12 + Z.of_nat index + 2))
    with (List.length header + S (S index))%nat by (rewrite Hlength; lia).
  rewrite nth_error_app2 by lia.
  replace (List.length header + S (S index) - List.length header)%nat
    with (S (S index)) by lia.
  reflexivity.
Qed.

End MoreProperties.

(* ------------------------------------------------------------------ *)
(** * The rendered report *)

Lemma String_length_append a b :
  String.length (String.append a b) = (String.length a + String.length b)%nat.
Proof.
  induction a as [|c a IH]; cbn [String.append String.length]; [reflexivity|].
  now rewrite IH.
Qed.

(** X8: a message of several lines stays aligned: for an error with a line
    number, the first line follows the bullet and the ["Line N: "] prefix,
    and every further line is indented by exactly the width of that bullet
    and prefix, whatever its own length. *)
Theorem continuation_lines_are_aligned n first rest :
  let prefix := String.append Report.itemPrefix (Report.lineNumberPrefix n) in
  Report.renderEntry
    {| Report.messageText := Report.TextLines (first :: rest);
       Report.line := Some n |}
  = String.append prefix first
    :: map (fun l => String.append (Report.spaces (String.length prefix)) l)
           rest.
Proof.
  intro prefix. unfold Report.renderEntry.
  cbn [Report.line Report.messageText tl]. f_equal.
  apply map_ext. intro l. unfold Report.padStart. f_equal. f_equal.
  subst prefix. rewrite String_length_append. lia.
Qed.

(* ------------------------------------------------------------------ *)
(** * The helpers of the functional tests *)

Section RunToolProperties.

Variable PackageSpecification : Type.
Variable specificationName : PackageSpecification -> string.





End RunToolProperties.

Section NormalizeProperties.

Import TestUtils.

Lemma dropWhile_fixed p s :
  dropWhile p (dropWhile p s) = dropWhile p s.
Proof.
  induction s as [|c s IH]; cbn [dropWhile]; [reflexivity|].
  destruct (p c) eqn:Hc; [exact IH|]. cbn [dropWhile]. now rewrite Hc.
Qed.

Lemma dropWhile_suffix p s : exists a, s = a ++ dropWhile p s.
Proof.
  induction s as [|c s [a IH]]; cbn [dropWhile]; [now exists []|].
  destruct (p c); [|now exists []].
  exists (c :: a). cbn [app]. now rewrite <- IH.
Qed.

Lemma dropWhile_head p c s :
  dropWhile p (c :: s) = c :: s <-> p c = false.
Proof.
  cbn [dropWhile]. destruct (p c) eqn:Hc; split; try reflexivity;
    try discriminate.
  intro Heq. destruct (dropWhile_suffix p s) as [a Ha].
  rewrite Heq in Ha. apply (f_equal (@List.length _)) in Ha.
  rewrite length_app in Ha. cbn [List.length] in Ha. lia.
Qed.

Lemma trim_trimmed s : trimmed (trim s).
Proof.
  unfold trimmed, trim. rewrite rev_involutive, dropWhile_fixed.
  split; [|reflexivity].
  remember (dropWhile isWhiteSpace s) as y eqn:Hy.
  assert (Hfixed : dropWhile isWhiteSpace y = y).
  { subst y. apply dropWhile_fixed. }
  destruct (dropWhile_suffix isWhiteSpace (rev y)) as [a Ha].
  remember (dropWhile isWhiteSpace (rev y)) as z eqn:Hz.
  apply (f_equal (@rev _)) in Ha. rewrite rev_involutive, rev_app_distr in Ha.
  destruct (rev z) as [|h t] eqn:Hrev; [reflexivity|].
  apply dropWhile_head. rewrite Ha in Hfixed. cbn [app] in Hfixed.
  now apply dropWhile_head in Hfixed.
Qed.

Lemma trim_of_trimmed s : trimmed s -> trim s = s.
Proof.
  intros [Hstart Hend]. unfold trim.
  now rewrite Hstart, Hend, rev_involutive.
Qed.

Lemma split_not_nil s : split s <> [].
Proof.
  destruct s as [|c s]; cbn [split]; [discriminate|].
  destruct (N.eqb c LF); [discriminate|]. destruct (split s); discriminate.
Qed.

Lemma join_split s : join (split s) = s.
Proof.
  induction s as [|c s IH]; cbn [split]; [reflexivity|].
  destruct (N.eqb_spec c LF) as [->|Hc].
  - destruct (split s) as [|l ls] eqn:Hs; [now destruct (split_not_nil s)|].
    cbn [join app]. cbn [join] in IH. now rewrite IH.
  - destruct (split s) as [|l ls] eqn:Hs; [now destruct (split_not_nil s)|].
    destruct ls as [|l2 ls]; cbn [join app] in *; now rewrite IH.
Qed.

Lemma isLineBreak_isWhiteSpace c : isLineBreak c = true -> isWhiteSpace c = true.
Proof.
  unfold isLineBreak. rewrite orb_true_iff, !N.eqb_eq.
  intros [->| ->]; reflexivity.
Qed.

Lemma removeIndentation_nil lines : map (removeIndentation []) lines = lines.
Proof.
  induction lines as [|l lines IH]; cbn [map]; [reflexivity|].
  now rewrite IH.
Qed.

(** X10: what [normalizeMultilineString] returns always ends with one line feed,
    and what comes before it neither begins nor ends with white space. *)
Theorem normalized_string_shape string :
  exists normalizedString,
    normalizeMultilineString string = normalizedString ++ [LF]
    /\ trimmed normalizedString.
Proof.
  unfold normalizeMultilineString. eexists. split; [reflexivity|].
  apply trim_trimmed.
Qed.

Lemma normalize_of_trimmed t :
  trimmed t -> normalizeMultilineString (t ++ [LF]) = t ++ [LF].
Proof.
  intro Htrimmed. pose proof Htrimmed as [Hstart Hend].
  unfold normalizeMultilineString.
  assert (Hstrip : rev (dropWhile isLineBreak
                          (rev (dropWhile isLineBreak (t ++ [LF])))) = t).
  { destruct t as [|h t'].
    - reflexivity.
    - apply dropWhile_head in Hstart.
      assert (Hh : isLineBreak h = false).
      { destruct (isLineBreak h) eqn:E; [|reflexivity].
        apply isLineBreak_isWhiteSpace in E. congruence. }
      cbn [app dropWhile]. rewrite Hh.
      change (h :: t' ++ [LF]) with ((h :: t') ++ [LF]).
      rewrite rev_app_distr. cbn [rev app dropWhile].
      change (isLineBreak LF) with true. cbn iota.
      destruct (rev t' ++ [h]) as [|l ls] eqn:Hrev.
      + now destruct (app_cons_not_nil (rev t') [] h).
      + change (rev (h :: t')) with (rev t' ++ [h]) in Hend.
        rewrite Hrev in Hend. apply dropWhile_head in Hend.
        assert (Hl : isLineBreak l = false).
        { destruct (isLineBreak l) eqn:E; [|reflexivity].
          apply isLineBreak_isWhiteSpace in E. congruence. }
        cbn [dropWhile]. rewrite Hl, <- Hrev.
        change (rev t' ++ [h]) with (rev (h :: t')). apply rev_involutive. }
  rewrite Hstrip.
  assert (Hindent : match split t with
                    | first :: _ => takeWhile (N.eqb SP) first
                    | [] => []
                    end = []).
  { destruct t as [|h t']; [reflexivity|].
    apply dropWhile_head in Hstart. cbn [split].
    destruct (N.eqb_spec h LF) as [->|Hlf]; [discriminate Hstart|].
    destruct (split t') as [|l ls]; cbn [takeWhile];
      (destruct (N.eqb_spec SP h) as [<-|Hsp]; [discriminate Hstart|]);
      reflexivity. }
  rewrite Hindent, removeIndentation_nil, join_split.
  now rewrite trim_of_trimmed.
Qed.

(** X11: [normalizeMultilineString] is idempotent: normalizing a normalized
    string gives it back. *)
Theorem normalizeMultilineString_idempotent string :
  normalizeMultilineString (normalizeMultilineString string)
  = normalizeMultilineString string.
Proof.
  assert (Hshape : exists t,
             normalizeMultilineString string = t ++ [LF] /\ trimmed t).
  { unfold normalizeMultilineString. eexists. split; [reflexivity|].
    apply trim_trimmed. }
  destruct Hshape as (t & -> & Htrimmed).
  now apply normalize_of_trimmed.
Qed.

End NormalizeProperties.

(* ------------------------------------------------------------------ *)
(** * The further properties on the small monorepo *)

(** The three problems are reported on lines 2 and 3 of a file of five
    lines. *)
Lemma line_numbers_in_range_witness :
  validateReleaseSpecification Examples.project "release-spec.yml"
    (Examples.text Examples.threeProblems)
    (Examples.parsed Examples.threeProblems)
  = ReleaseSpecificationError MoreExamples.threeProblemsErrors
  /\ forall e n,
       In e MoreExamples.threeProblemsErrors -> lineNumber e = Some n ->
       1 <= n <= 5 + 3.
Proof.
  split; [reflexivity|].
  exact (proj2 (proj2 (line_numbers_in_range
                         Examples.project "release-spec.yml"
                         (Examples.text Examples.threeProblems)
                         (Examples.parsed Examples.threeProblems)
                         MoreExamples.threeProblemsErrors
                         Examples.threeProblems eq_refl eq_refl))).
Defined.

Lemma report_follows_document_witness :
  validateReleaseSpecification Examples.project "release-spec.yml"
    (Examples.text Examples.threeProblems)
    (Examples.parsed Examples.threeProblems)
  = ReleaseSpecificationError MoreExamples.threeProblemsErrors
  /\ StronglySorted Z.le [2; 3].
Proof.
  split; [reflexivity|].
  exact (proj1 (proj2 (report_follows_document
                         Examples.project "release-spec.yml"
                         (Examples.text Examples.threeProblems)
                         (Examples.parsed Examples.threeProblems)
                         MoreExamples.threeProblemsErrors eq_refl))).
Defined.

(** The template generated for the small monorepo, validated untouched. *)
Lemma untouched_template_releases_nothing_witness :
  templatePackages (changedWorkspacePackages Examples.project)
  = MoreExamples.untouchedTemplate
  /\ validateReleaseSpecification Examples.project "release-spec.yml"
       Examples.templateText
       (Examples.parsed MoreExamples.untouchedTemplate)
     = Validated MoreExamples.nothingReleased.
Proof.
  split; [reflexivity|].
  apply (untouched_template_releases_nothing
           Examples.project "release-spec.yml" Examples.templateText).
  intros k pkg [[= <- <-]|[[= <- <-]|[[= <- <-]|[]]]]; reflexivity.
Defined.

(** [a] and [b] are both listed: the only error is about the value given
    to [b]. *)
Lemma listing_every_changed_package_witness :
  validateReleaseSpecification Examples.project "release-spec.yml"
    (Examples.text MoreExamples.everyChangedListed)
    (Examples.parsed MoreExamples.everyChangedListed)
  = ReleaseSpecificationError MoreExamples.everyChangedListedErrors
  /\ forall e,
       In e MoreExamples.everyChangedListedErrors ->
       kind (message e) <> KMissingDependents
       /\ kind (message e) <> KMissingDependencies.
Proof.
  split; [reflexivity|].
  apply (listing_every_changed_package_satisfies_dependency_rules
           Examples.project "release-spec.yml"
           (Examples.text MoreExamples.everyChangedListed)
           MoreExamples.everyChangedListed
           MoreExamples.everyChangedListedErrors).
  - intros n pkg Hget Hch.
    change (Obj.get (workspacePackages Examples.project) n)
      with (if String.eqb "a" n then Some Examples.a
            else if String.eqb "b" n then Some Examples.b
                 else if String.eqb "c" n then Some Examples.c else None)
      in Hget.
    destruct (String.eqb_spec "a" n) as [<-|_]; [reflexivity|].
    destruct (String.eqb_spec "b" n) as [<-|_]; [reflexivity|].
    destruct (String.eqb_spec "c" n) as [<-|_]; [|discriminate Hget].
    injection Hget as <-. discriminate Hch.
  - reflexivity.
Defined.

Lemma resolvePackages_in_document_order_witness :
  NoDup (Obj.keys Examples.goodRelease)
  /\ resolvePackages Examples.goodRelease = Examples.goodReleasePackages.
Proof.
  assert (Hnd : NoDup (Obj.keys Examples.goodRelease)).
  { repeat constructor; simpl; intuition discriminate. }
  split; [exact Hnd|].
  exact (resolvePackages_in_document_order Examples.goodRelease Hnd).
Defined.

(** In the template of the small monorepo the entry of [a] is attributed
    line 14, and index 14 of the lines, that is line 15, is where it
    stands. *)
Lemma generated_template_line_attribution_witness :
  Lines.indexOfFirstUsableLine Examples.templateText = 12
  /\ entryLineNumber (Lines.indexOfFirstUsableLine Examples.templateText) 0
     = 14
  /\ nth_error (Lines.split Examples.templateText) 14 = Some "  a: null".
Proof.
  pose proof (generated_template_line_attribution
                Examples.text Examples.project true Examples.templateText
                eq_refl eq_refl) as (_ & Hfirst & Hentries).
  split; [exact Hfirst|].
  destruct (Hentries 0%nat) as [Hline Hnth].
  split; [exact Hline|].
  rewrite Hline in Hnth. exact Hnth.
Defined.

